(** * thingzi-climate: the decision logic of [node/climate.js]

    A shallow embedding of the climate node: its configuration, its mutable
    fields, the accessor objects ([setpoint], [override], [action], [mode]),
    the temperature tracker, the action calculator and the periodic update
    loop, followed by the properties of the specification.

    Conventions of the embedding.
    - A JavaScript number is a [number]: NaN, the two infinities, or a
      rational.  Comparisons are exact; [+], [-], [*] and the reading of a
      decimal round to binary64 as JavaScript does (to the nearest double,
      ties to even, overflow to an infinity, gradual underflow).  The sign
      of a zero is not kept: nothing in the node can observe it.
    - A JavaScript value is [undefined], [null], a boolean, a number or a
      string; a string is held as its UTF-8 bytes.  Symbols and objects are
      not modelled: what is stated of messages and of the context store is
      stated of messages and stores made of these values.
    - A [moment] instant is its millisecond count since the epoch, a [Z];
      [a.diff(b)] is [a - b].  One handler (an input event, an MQTT message,
      one timer tick) runs at one clock reading [now].
    - Code that can throw runs in the monad [M]: the node is threaded through
      and an exception keeps the mutations made before it. *)

From Stdlib Require Import ZArith QArith Qabs Qround Qpower Lqa Lia Bool List Ascii String.
From stdpp Require Import gmap strings.
Import ListNotations.

Local Open Scope string_scope.
Local Open Scope Z_scope.

(* ------------------------------------------------------------------ *)
(** ** JavaScript numbers *)

Module Num.

Inductive number : Type :=
| NaN
| NegInf
| Fin (q : Q)
| PosInf.

Definition Qltb (p q : Q) : bool := negb (Qle_bool q p).

(** [a < b] *)
Definition ltb (a b : number) : bool :=
  match a, b with
  | NaN, _ | _, NaN => false
  | NegInf, NegInf => false
  | NegInf, _ => true
  | Fin p, Fin q => Qltb p q
  | Fin _, PosInf => true
  | Fin _, NegInf => false
  | PosInf, _ => false
  end.

(** [a <= b] *)
Definition leb (a b : number) : bool :=
  match a, b with
  | NaN, _ | _, NaN => false
  | NegInf, _ => true
  | Fin p, Fin q => Qle_bool p q
  | Fin _, PosInf => true
  | Fin _, NegInf => false
  | PosInf, PosInf => true
  | PosInf, _ => false
  end.

(** [a > b] and [a >= b] *)
Definition gtb (a b : number) : bool := ltb b a.
Definition geb (a b : number) : bool := leb b a.

(** *** Rounding to binary64 *)

Definition pow2 (k : Z) : Q := Qpower 2 k.

(** [floor (log2 q)] for a positive [q]. *)
Definition ilog2 (q : Q) : Z :=
  let k0 := Z.log2 (Qnum q) - Z.log2 (Zpos (Qden q)) in
  if Qle_bool (pow2 k0) q then k0 else k0 - 1.

(** The nearest integer, ties to even. *)
Definition rne (x : Q) : Z :=
  let f := Qfloor x in
  match (x - inject_Z f ?= 1 # 2)%Q with
  | Lt => f
  | Gt => f + 1
  | Eq => if Z.even f then f else f + 1
  end.

(** The exponent of the unit in the last place at [a]: 52 below the
    exponent of [a] for a normal number, -1074 for a subnormal one. *)
Definition grid (a : Q) : Z := Z.max (ilog2 a - 52) (-1074).

(** The nearest multiple of [2 ^ grid a] to a positive [a]. *)
Definition roundMagnitude (a : Q) : Q :=
  (inject_Z (rne (a * pow2 (- grid a))) * pow2 (grid a))%Q.

(** [2 ^ 1024 <= r]: the magnitude is beyond the largest double.  The
    test on the size of the numerator decides the common case without
    computing the power (lemma [overflows_spec]). *)
Definition overflows (r : Q) : bool :=
  (1024 <=? Z.log2 (Qnum r))%Z && Qle_bool (pow2 1024) r.

(** The double nearest to [q]; from [2 ^ 1024] on, an infinity. *)
Definition round64 (q : Q) : number :=
  match Qnum q with
  | 0 => Fin 0
  | Zpos _ =>
      let r := roundMagnitude q in
      if overflows r then PosInf else Fin (Qred r)
  | Zneg _ =>
      let r := roundMagnitude (- q) in
      if overflows r then NegInf else Fin (Qred (- r))
  end.

(** [a + b] *)
Definition add (a b : number) : number :=
  match a, b with
  | NaN, _ | _, NaN => NaN
  | PosInf, NegInf | NegInf, PosInf => NaN
  | PosInf, _ | _, PosInf => PosInf
  | NegInf, _ | _, NegInf => NegInf
  | Fin p, Fin q => round64 (p + q)
  end.

Definition opp (a : number) : number :=
  match a with
  | NaN => NaN
  | NegInf => PosInf
  | Fin q => Fin (- q)
  | PosInf => NegInf
  end.

(** [a - b] *)
Definition sub (a b : number) : number := add a (opp b).

Definition Qsgn (q : Q) : Z := Z.sgn (Qnum q).

(** [a * b] *)
Definition mul (a b : number) : number :=
  let inf (s : Z) := if s =? 0 then NaN else if 0 <? s then PosInf else NegInf in
  let sgn (x : number) :=
    match x with
    | NaN => 0 | NegInf => -1 | PosInf => 1 | Fin q => Qsgn q
    end in
  match a, b with
  | NaN, _ | _, NaN => NaN
  | Fin p, Fin q => round64 (p * q)
  | _, _ => inf (sgn a * sgn b)
  end.

(** [Math.abs] *)
Definition abs (a : number) : number :=
  match a with
  | NaN => NaN
  | NegInf | PosInf => PosInf
  | Fin q => Fin (Qabs q)
  end.

(** [isNaN] on a number *)
Definition isNaN (a : number) : bool :=
  match a with NaN => true | _ => false end.

(** ToBoolean on a number: 0 and NaN are falsy. *)
Definition truthy (a : number) : bool :=
  match a with
  | NaN => false
  | Fin q => negb (Qeq_bool q 0)
  | _ => true
  end.

Definition ofZ (z : Z) : number := Fin (inject_Z z).

Definition isFinite (a : number) : bool :=
  match a with Fin _ => true | _ => false end.

End Num.
Export Num.

Arguments Num.round64 : simpl never.

Declare Scope num_scope.
Delimit Scope num_scope with num.
Infix "<?" := Num.ltb : num_scope.
Infix "<=?" := Num.leb : num_scope.
Infix ">?" := Num.gtb : num_scope.
Infix ">=?" := Num.geb : num_scope.
Infix "+" := Num.add : num_scope.
Infix "-" := Num.sub : num_scope.
Infix "*" := Num.mul : num_scope.

(* ------------------------------------------------------------------ *)
(** ** JavaScript values and [parseFloat] *)

Inductive value : Type :=
| VUndefined
| VNull
| VBool (b : bool)
| VNum (n : number)
| VStr (s : string).

Module ParseFloat.

(** White space and line terminators of one byte: TAB, LF, VT, FF, CR
    and SP. *)
Definition isSpace (c : ascii) : bool :=
  let n := N_of_ascii c in
  orb (N.eqb n 32) (andb (N.leb 9 n) (N.leb n 13)).

(** ... of two bytes: U+00A0. *)
Definition isSpace2 (c1 c2 : ascii) : bool :=
  andb (N.eqb (N_of_ascii c1) 194) (N.eqb (N_of_ascii c2) 160).

(** ... of three bytes: U+1680, U+2000 to U+200A, U+2028, U+2029, U+202F,
    U+205F, U+3000 and U+FEFF. *)
Definition isSpace3 (c1 c2 c3 : ascii) : bool :=
  let a := N_of_ascii c1 in
  let b := N_of_ascii c2 in
  let c := N_of_ascii c3 in
  orb (andb (N.eqb a 225) (andb (N.eqb b 154) (N.eqb c 128)))
 (orb (andb (N.eqb a 226) (andb (N.eqb b 128)
         (orb (andb (N.leb 128 c) (N.leb c 138))
         (orb (N.eqb c 168) (orb (N.eqb c 169) (N.eqb c 175))))))
 (orb (andb (N.eqb a 226) (andb (N.eqb b 129) (N.eqb c 159)))
 (orb (andb (N.eqb a 227) (andb (N.eqb b 128) (N.eqb c 128)))
      (andb (N.eqb a 239) (andb (N.eqb b 187) (N.eqb c 191)))))).

Definition digit (c : ascii) : option Z :=
  let n := Z.of_N (N_of_ascii c) in
  if andb (48 <=? n) (n <=? 57) then Some (n - 48) else None.

Fixpoint trimStart (s : string) : string :=
  match s with
  | String c1 r1 =>
      if isSpace c1 then trimStart r1
      else
        match r1 with
        | String c2 r2 =>
            if isSpace2 c1 c2 then trimStart r2
            else
              match r2 with
              | String c3 r3 => if isSpace3 c1 c2 c3 then trimStart r3 else s
              | EmptyString => s
              end
        | EmptyString => s
        end
  | EmptyString => s
  end.

(** The longest run of decimal digits at the head of [s]: its value
    continuing from [acc], how many digits it has, and the rest. *)
Fixpoint digits (s : string) (acc : Z) (len : nat) : Z * nat * string :=
  match s with
  | String c s' =>
      match digit c with
      | Some d => digits s' (10 * acc + d) (S len)
      | None => (acc, len, s)
      end
  | EmptyString => (acc, len, s)
  end.

Definition sign (s : string) : Z * string :=
  match s with
  | String "+" s' => (1, s')
  | String "-" s' => (-1, s')
  | _ => (1, s)
  end.

(** ExponentPart, when one is there; 0 otherwise. *)
Definition exponent (s : string) : Z :=
  match s with
  | String c s' =>
      if orb (Ascii.eqb c "e") (Ascii.eqb c "E") then
        let '(sg, s'') := sign s' in
        let '(e, len, _) := digits s'' 0 0%nat in
        match len with O => 0 | S _ => sg * e end
      else 0
  | EmptyString => 0
  end.

Definition pow10 (e : Z) : Q := Qpower (inject_Z 10) e.

(** The longest prefix of the trimmed string that is a StrDecimalLiteral,
    as the double nearest to it. *)
Definition ofString (s : string) : number :=
  let '(sg, s1) := sign (trimStart s) in
  if String.prefix "Infinity" s1 then
    (if 0 <? sg then PosInf else NegInf)
  else
    let '(ip, ilen, s2) := digits s1 0 0%nat in
    let '(fp, flen, s3) :=
      match s2 with
      | String "." s2' => digits s2' 0 0%nat
      | _ => (0, 0%nat, s2)
      end in
    match ilen, flen with
    | O, O => NaN
    | _, _ =>
        let mant := (inject_Z ip + inject_Z fp * pow10 (- Z.of_nat flen))%Q in
        round64 (inject_Z sg * mant * pow10 (exponent s3))
    end.

End ParseFloat.

(** [parseFloat(v)]: the argument is converted to a string first, so only
    numbers and strings can give a number.  (On a Symbol, or an object
    that cannot be converted to a string, JavaScript's [parseFloat] throws;
    [value] has neither.) *)
Definition parseFloat (v : value) : number :=
  match v with
  | VNum n => n
  | VStr s => ParseFloat.ofString s
  | VUndefined | VNull | VBool _ => NaN
  end.

(** [v === 'literal'] *)
Definition strictEqStr (v : value) (lit : string) : bool :=
  match v with
  | VStr s => String.eqb s lit
  | _ => false
  end.

(** [v === true] *)
Definition strictEqTrue (v : value) : bool :=
  match v with
  | VBool true => true
  | _ => false
  end.

(* ------------------------------------------------------------------ *)
(** ** Modes, actions, configuration *)

Inductive mode : Type := Off | Heat | Cool | Auto.

Inductive action : Type := Heating | Cooling | NoAction.

Definition noneValue : string := "none".

Definition modeName (m : mode) : string :=
  match m with
  | Off => "off"
  | Heat => "heat"
  | Cool => "cool"
  | Auto => "auto"
  end.

Definition actionName (a : action) : string :=
  match a with
  | Heating => "heating"
  | Cooling => "cooling"
  | NoAction => noneValue
  end.

Definition mode_eqb (a b : mode) : bool :=
  match a, b with
  | Off, Off | Heat, Heat | Cool, Cool | Auto, Auto => true
  | _, _ => false
  end.

(** The fields of the node that are written once, when it is created
    (lines 16-73).  [boostDurationMins] is the configured value as the
    multiplication of line 438 sees it; [broker] says whether
    [RED.nodes.getNode] found one. *)
Record Config : Type := mkConfig {
  name : string;
  deviceId : string;
  keepAliveMs : number;
  cycleDelayMs : number;
  boostDurationMins : number;
  defaultHeatSetpoint : number;
  defaultCoolSetpoint : number;
  tolerance : number;
  minTemp : number;
  maxTemp : number;
  tempValidMs : number;
  swapDelayMs : number;
  advertise : bool;
  broker : bool;
  topic : option string;
  hasHeating : bool;
  hasCooling : bool;
  hasSetpoint : bool;
  defaultMode : mode
}.

(** What the editor hands to the node.  [c_name], [c_deviceId] and
    [c_topic] stand for the strings lines 16-22 and 52-54 build from
    [config.name] and [config.topic]; [c_boostDuration] is the number
    [config.boostDuration] converts to. *)
Record RawConfig : Type := mkRawConfig {
  c_name : string;
  c_deviceId : string;
  c_climateType : string;
  c_keepAlive : value;
  c_cycleDelay : value;
  c_boostDuration : number;
  c_defaultHeatSetpoint : value;
  c_defaultCoolSetpoint : value;
  c_tolerance : value;
  c_minTemp : value;
  c_maxTemp : value;
  c_tempValid : value;
  c_swapDelay : value;
  c_advertise : bool;
  c_broker : bool;
  c_topic : option string
}.

Definition createConfig (c : RawConfig) : Config :=
  let ty := c_climateType c in
  let isType (s : string) := String.eqb ty s in
  {| name := c_name c;
     deviceId := c_deviceId c;
     keepAliveMs := (parseFloat (c_keepAlive c) * ofZ 1000 * ofZ 60)%num;
     cycleDelayMs := (parseFloat (c_cycleDelay c) * ofZ 1000)%num;
     boostDurationMins := c_boostDuration c;
     defaultHeatSetpoint := parseFloat (c_defaultHeatSetpoint c);
     defaultCoolSetpoint := parseFloat (c_defaultCoolSetpoint c);
     tolerance := parseFloat (c_tolerance c);
     minTemp := parseFloat (c_minTemp c);
     maxTemp := parseFloat (c_maxTemp c);
     tempValidMs := (parseFloat (c_tempValid c) * ofZ 1000 * ofZ 60)%num;
     swapDelayMs := (parseFloat (c_swapDelay c) * ofZ 1000 * ofZ 60)%num;
     advertise := c_advertise c;
     broker := c_broker c;
     topic := c_topic c;
     hasHeating := isType "both" || isType "heat" || isType "manual";
     hasCooling := isType "both" || isType "cool" || isType "manual";
     hasSetpoint := negb (isType "manual");
     defaultMode := if isType "both" then Auto else if isType "cool" then Cool else Heat |}.

(* ------------------------------------------------------------------ *)
(** ** The node *)

(** The object built by [initSetpoint]: its two own fields and the
    [defaultSetpoint] constant its closures capture. *)
Record SetpointStore : Type := mkSetpointStore {
  sp_current : option number;
  sp_lastChange : option Z;
  sp_defaultSetpoint : value
}.

Record Payload : Type := mkPayload {
  p_deviceId : option string;
  p_name : string;
  p_mode : string;
  p_temperature : value;
  p_action : string;
  p_heatSetpoint : value;
  p_coolSetpoint : value;
  p_connected : bool
}.

(** What the node hands to its host: [node.status], [node.send] and
    [node.broker.publish]. *)
Inductive output : Type :=
| Status (fill shape text : string)
| Send (msgTopic : option string) (payload : Payload)
| Publish (msgTopic : string) (payload : Payload).

Record Node : Type := mkNode {
  cfg : Config;
  context : gmap string value;
  starting : bool;
  lastChange : option mode;
  lastAction : option action;
  lastTemp : option number;
  lastTempTime : option Z;
  lastHeatTime : option Z;
  lastCoolTime : option Z;
  lastSend : option Z;
  setpoint : option SetpointStore;
  override : option bool;
  outbox : list output
}.

Definition set_context (f : gmap string value -> gmap string value) (s : Node) : Node :=
  mkNode (cfg s) (f (context s)) (starting s) (lastChange s) (lastAction s) (lastTemp s)
    (lastTempTime s) (lastHeatTime s) (lastCoolTime s) (lastSend s) (setpoint s)
    (override s) (outbox s).

Definition set_lastChange (v : option mode) (s : Node) : Node :=
  mkNode (cfg s) (context s) (starting s) v (lastAction s) (lastTemp s)
    (lastTempTime s) (lastHeatTime s) (lastCoolTime s) (lastSend s) (setpoint s)
    (override s) (outbox s).

Definition set_lastAction (v : option action) (s : Node) : Node :=
  mkNode (cfg s) (context s) (starting s) (lastChange s) v (lastTemp s)
    (lastTempTime s) (lastHeatTime s) (lastCoolTime s) (lastSend s) (setpoint s)
    (override s) (outbox s).

Definition set_lastTemp (v : option number) (t : option Z) (s : Node) : Node :=
  mkNode (cfg s) (context s) (starting s) (lastChange s) (lastAction s) v
    t (lastHeatTime s) (lastCoolTime s) (lastSend s) (setpoint s)
    (override s) (outbox s).

Definition set_lastHeatTime (v : option Z) (s : Node) : Node :=
  mkNode (cfg s) (context s) (starting s) (lastChange s) (lastAction s) (lastTemp s)
    (lastTempTime s) v (lastCoolTime s) (lastSend s) (setpoint s)
    (override s) (outbox s).

Definition set_lastCoolTime (v : option Z) (s : Node) : Node :=
  mkNode (cfg s) (context s) (starting s) (lastChange s) (lastAction s) (lastTemp s)
    (lastTempTime s) (lastHeatTime s) v (lastSend s) (setpoint s)
    (override s) (outbox s).

Definition set_lastSend (v : option Z) (s : Node) : Node :=
  mkNode (cfg s) (context s) (starting s) (lastChange s) (lastAction s) (lastTemp s)
    (lastTempTime s) (lastHeatTime s) (lastCoolTime s) v (setpoint s)
    (override s) (outbox s).

Definition set_setpoint (v : option SetpointStore) (s : Node) : Node :=
  mkNode (cfg s) (context s) (starting s) (lastChange s) (lastAction s) (lastTemp s)
    (lastTempTime s) (lastHeatTime s) (lastCoolTime s) (lastSend s) v
    (override s) (outbox s).

Definition set_override (v : option bool) (s : Node) : Node :=
  mkNode (cfg s) (context s) (starting s) (lastChange s) (lastAction s) (lastTemp s)
    (lastTempTime s) (lastHeatTime s) (lastCoolTime s) (lastSend s) (setpoint s)
    v (outbox s).

Definition emit (o : output) (s : Node) : Node :=
  mkNode (cfg s) (context s) (starting s) (lastChange s) (lastAction s) (lastTemp s)
    (lastTempTime s) (lastHeatTime s) (lastCoolTime s) (lastSend s) (setpoint s)
    (override s) (outbox s ++ [o]).

(* ------------------------------------------------------------------ *)
(** ** Handlers that can throw *)

Inductive error : Type :=
| TypeError (msg : string).

Inductive result (A : Type) : Type :=
| Ok (a : A)
| Throw (e : error).
Arguments Ok {A} a.
Arguments Throw {A} e.

Definition M (A : Type) : Type := Node -> result A * Node.

#[global] Instance M_ret : MRet M := fun A a s => (Ok a, s).

#[global] Instance M_bind : MBind M := fun A B f m s =>
  match m s with
  | (Ok a, s') => f a s'
  | (Throw e, s') => (Throw e, s')
  end.

Definition throw {A : Type} (e : error) : M A := fun s => (Throw e, s).
Definition gets {A : Type} (f : Node -> A) : M A := fun s => (Ok (f s), s).
Definition modify (f : Node -> Node) : M unit := fun s => (Ok tt, f s).
Definition when (b : bool) (c : M unit) : M unit := if b then c else mret tt.

(** The node a handler leaves behind, thrown or not. *)
Definition exec {A : Type} (c : M A) (s : Node) : Node := snd (c s).

(** [x || 0] on an instant that may still be [null]. *)
Definition orEpoch (t : option Z) : Z :=
  match t with Some x => x | None => 0 end.

(* ------------------------------------------------------------------ *)
(** ** The methods of the node, in source order *)

(** [isConnected] (line 140) *)
Definition isConnected (now : Z) (s : Node) : bool :=
  (ofZ (now - orEpoch (lastSend s)) <? keepAliveMs (cfg s))%num.

Definition isHeating (s : Node) : bool :=
  match lastAction s with Some Heating => true | _ => false end.

Definition isCooling (s : Node) : bool :=
  match lastAction s with Some Cooling => true | _ => false end.

(** [getStoredValue] (line 193): [undefined] in the context store means
    the default. *)
Definition getStoredValue (key : string) (defaultValue : value) (s : Node) : value :=
  match context s !! key with
  | Some VUndefined | None => defaultValue
  | Some v => v
  end.

Definition setStoredValue (key : string) (v : value) (s : Node) : Node :=
  set_context (fun m => <[key := v]> m) s.

Definition getHeatSetpoint (s : Node) : value :=
  getStoredValue "heatSetpoint" (VNum (defaultHeatSetpoint (cfg s))) s.

Definition setHeatSetpoint (v : value) (s : Node) : Node :=
  setStoredValue "heatSetpoint" v s.

Definition getCoolSetpoint (s : Node) : value :=
  getStoredValue "coolSetpoint" (VNum (defaultCoolSetpoint (cfg s))) s.

Definition setCoolSetpoint (v : value) (s : Node) : Node :=
  setStoredValue "coolSetpoint" v s.

(** [calculateAction] (line 155).  [parseFloat] returns a number, so the
    two [!== null] tests of the source always pass. *)
Definition calculateAction (s : Node) (currentTemp targetTemp : number) : action :=
  let heatSetpoint := parseFloat (getHeatSetpoint s) in
  let coolSetpoint := parseFloat (getCoolSetpoint s) in
  let tol := tolerance (cfg s) in
  if (currentTemp <? targetTemp - tol)%num then
    if (currentTemp <? heatSetpoint - tol)%num then Heating else NoAction
  else if (currentTemp >? targetTemp + tol)%num then
    if (currentTemp >? coolSetpoint + tol)%num then Cooling else NoAction
  else NoAction.

(** [updateStatus] (line 119) *)
Definition updateStatus (now : Z) : M unit := fun s =>
  let text := if isConnected now s then "connected" else "disconnected" in
  let st :=
    match lastChange s with
    | Some m =>
        Status (if isHeating s then "red" else if isCooling s then "blue" else "green")
               "ring" (modeName m)
    | None => Status "blue" "dot" text
    end in
  (Ok tt, emit st s).

(** The payload shared by [updateNode] and [sendStatusUpdate]; [x || 'none']
    falls back on a falsy [x], which for a temperature includes 0. *)
Definition buildPayload (now : Z) (withId : bool) (s : Node) : Payload :=
  {| p_deviceId := if withId then Some (deviceId (cfg s)) else None;
     p_name := name (cfg s);
     p_mode := match lastChange s with Some m => modeName m | None => noneValue end;
     p_temperature :=
       match lastTemp s with
       | Some t => if Num.truthy t then VNum t else VStr noneValue
       | None => VStr noneValue
       end;
     p_action := match lastAction s with Some a => actionName a | None => noneValue end;
     p_heatSetpoint := getHeatSetpoint s;
     p_coolSetpoint := getCoolSetpoint s;
     p_connected := isConnected now s |}.

(** [updateNode] (line 204) *)
Definition updateNode (now : Z) : M unit :=
  updateStatus now;;
  s ← gets id;
  modify (emit (Send (topic (cfg s)) (buildPayload now true s))).

(** The test of [updateTemperature] (lines 225-232). *)
Definition acceptsTemperature (now : Z) (temp : option number) (s : Node) : bool :=
  match temp with
  | None => false
  | Some t =>
      (t >=? minTemp (cfg s))%num && (t <=? maxTemp (cfg s))%num &&
      match lastTemp s with
      | None => true
      | Some l =>
          (Num.abs (t - l) <=? tolerance (cfg s))%num ||
          (ofZ (now - orEpoch (lastTempTime s)) >? swapDelayMs (cfg s))%num
      end
  end.

(** [updateTemperature] (line 223); [temp] is a number or [null]. *)
Definition updateTemperature (now : Z) (temp : option number) : M unit :=
  s ← gets id;
  when (acceptsTemperature now temp s) (modify (set_lastTemp temp (Some now))).

Definition undefinedRead {A : Type} (prop : string) : M A :=
  throw (TypeError ("Cannot read properties of undefined (reading '" ++ prop ++ "')")).

(** [setpoint.set] (line 308) on the store object. *)
Definition store_set (c : Config) (now : Z) (v : value) (st : SetpointStore) : SetpointStore :=
  if hasSetpoint c && negb (match v with VNull => true | _ => false end) then
    let newSetpoint := parseFloat v in
    if negb (Num.isNaN newSetpoint) && (newSetpoint >=? minTemp c)%num
       && (newSetpoint <=? maxTemp c)%num
    then mkSetpointStore (Some newSetpoint) (Some now) (sp_defaultSetpoint st)
    else st
  else st.

(** [setpoint.get] (line 317) on the store object. *)
Definition store_get (c : Config) (now : Z) (st : SetpointStore) : value :=
  let valid :=
    match sp_lastChange st with
    | Some t => (ofZ (now - t) <=? tempValidMs c)%num
    | None => false
    end in
  if hasSetpoint c && valid then
    match sp_current st with Some n => VNum n | None => VUndefined end
  else sp_defaultSetpoint st.

(** [node.setpoint.set(v)]: [node.setpoint] is [undefined] when
    [initSetpoint] returned early. *)
Definition setpoint_set (now : Z) (v : value) : M unit :=
  s ← gets id;
  match setpoint s with
  | None => undefinedRead "set"
  | Some st => modify (set_setpoint (Some (store_set (cfg s) now v st)))
  end.

(** [node.setpoint.get()] *)
Definition setpoint_get (now : Z) : M value :=
  s ← gets id;
  match setpoint s with
  | None => undefinedRead "get"
  | Some st => mret (store_get (cfg s) now st)
  end.

(** [updateAction] (line 239) *)
Definition updateAction (now : Z) : M unit :=
  s ← gets id;
  match lastTemp s with
  | None => modify (set_lastAction (Some NoAction))
  | Some t =>
      target ← setpoint_get now;
      modify (fun s' => set_lastAction (Some (calculateAction s' t (parseFloat target))) s')
  end.

(** [sendStatusUpdate] (line 249) *)
Definition sendStatusUpdate (now : Z) : M unit :=
  s ← gets id;
  match advertise (cfg s), broker (cfg s), topic (cfg s) with
  | true, true, Some tp =>
      if String.eqb tp EmptyString then mret tt
      else
        modify (emit (Publish (tp ++ "/status") (buildPayload now false s)));;
        modify (set_lastSend (Some now))
  | _, _, _ => mret tt
  end.

(** [setSetpoint] (line 270) *)
Definition setSetpoint (now : Z) (v : value) : M unit :=
  setpoint_set now v;;
  updateAction now.

(** [override.set] and [override.get] (line 328) *)
Definition override_set (v : value) : M unit :=
  modify (set_override (Some (strictEqTrue v))).

Definition override_get (s : Node) : bool :=
  match override s with Some true => true | _ => false end.

(** [handleModeChange] (line 276) *)
Definition handleModeChange (now : Z) (newMode : mode) : M unit :=
  modify (set_lastChange (Some newMode));;
  modify (set_lastHeatTime None);;
  modify (set_lastCoolTime None);;
  if mode_eqb newMode Off then
    modify (set_lastAction (Some NoAction));;
    setpoint_set now VNull;;
    override_set (VBool false);;
    updateNode now
  else
    s ← gets id;
    (if mode_eqb (defaultMode (cfg s)) Auto then
       if mode_eqb newMode Heat then setpoint_set now (getHeatSetpoint s)
       else if mode_eqb newMode Cool then setpoint_set now (getCoolSetpoint s)
       else mret tt
     else mret tt);;
    updateAction now;;
    updateNode now.

(** [action.set] and [action.get] (line 340) *)
Definition action_set (now : Z) (v : value) : M unit :=
  s ← gets id;
  if strictEqStr v "heating" && hasHeating (cfg s) then handleModeChange now Heat
  else if strictEqStr v "cooling" && hasCooling (cfg s) then handleModeChange now Cool
  else if strictEqStr v "none" then handleModeChange now Auto
  else mret tt.

Definition action_get (s : Node) : action :=
  if isHeating s && hasHeating (cfg s) then Heating
  else if isCooling s && hasCooling (cfg s) then Cooling
  else NoAction.

(** [mode.set] and [mode.get] (line 363) *)
Definition mode_set (now : Z) (v : value) : M unit :=
  s ← gets id;
  if strictEqStr v "off" then handleModeChange now Off
  else if strictEqStr v "heat" && hasHeating (cfg s) then handleModeChange now Heat
  else if strictEqStr v "cool" && hasCooling (cfg s) then handleModeChange now Cool
  else handleModeChange now Auto.

Definition mode_get (s : Node) : mode :=
  match lastChange s with Some m => m | None => defaultMode (cfg s) end.

(* ------------------------------------------------------------------ *)
(** ** Event handlers and the update loop *)

(** The own properties of an input message that the handler looks at. *)
Record InputMsg : Type := mkInputMsg {
  m_payload : option value;
  m_mode : option value;
  m_temperature : option value;
  m_setpoint : option value;
  m_override : option value;
  m_action : option value
}.

Definition emptyMsg : InputMsg := mkInputMsg None None None None None None.

Definition whenOwn {A : Type} (field : option A) (f : A -> M unit) : M unit :=
  match field with
  | Some v => f v
  | None => mret tt
  end.

(** The ['input'] handler (line 84) *)
Definition onInput (now : Z) (msg : InputMsg) : M unit :=
  whenOwn (m_payload msg) (mode_set now);;
  whenOwn (m_mode msg) (mode_set now);;
  whenOwn (m_temperature msg) (setpoint_set now);;
  whenOwn (m_setpoint msg) (setpoint_set now);;
  whenOwn (m_override msg) override_set;;
  whenOwn (m_action msg) (action_set now).

Definition endsWith (s suffix : string) : bool :=
  let n := String.length s in
  let k := String.length suffix in
  (k <=? n)%nat && String.eqb (substring (n - k) k s) suffix.

(** The ['mqttIn'] handler (line 109) *)
Definition onMqttIn (now : Z) (msgTopic payload : string) : M unit :=
  when (endsWith msgTopic "/mode/set") (mode_set now (VStr payload));;
  when (endsWith msgTopic "/temperature/set") (setpoint_set now (VStr payload)).

Definition toValue (t : option number) : value :=
  match t with Some n => VNum n | None => VNull end.

(** [boostDurationMins * 60 * 1000] *)
Definition boostMs (c : Config) : number :=
  (boostDurationMins c * ofZ 60 * ofZ 1000)%num.

(** The run-length test of lines 438 and 440 for one of the two stamps. *)
Definition ranTooLong (now : Z) (stamp : option Z) (c : Config) : bool :=
  match stamp with
  | Some t => (ofZ (now - t) >=? boostMs c)%num
  | None => false
  end.

(** The callback of [setInterval] in [initUpdateLoop] (line 422) *)
Definition tick (now : Z) : M unit :=
  s ← gets id;
  if starting s || negb (isConnected now s) then updateStatus now
  else
    updateAction now;;
    last ← gets lastTemp;
    updateTemperature now (Some (parseFloat (toValue last)));;
    s1 ← gets id;
    (if isHeating s1 then modify (set_lastHeatTime (Some now))
     else if isCooling s1 then modify (set_lastCoolTime (Some now))
     else mret tt);;
    s2 ← gets id;
    (if isHeating s2 && ranTooLong now (lastHeatTime s2) (cfg s2)
     then modify (set_lastAction (Some NoAction))
     else if isCooling s2 && ranTooLong now (lastCoolTime s2) (cfg s2)
     then modify (set_lastAction (Some NoAction))
     else mret tt);;
    updateNode now;;
    sendStatusUpdate now;;
    updateStatus now.

(** The fields as the constructor leaves them (lines 25-26, 76-81);
    [lastTempTime] is not assigned there. *)
Definition createNode (c : Config) (ctx : gmap string value) : Node :=
  mkNode c ctx true None None None None None None None None None [].

Definition set_starting (b : bool) (s : Node) : Node :=
  mkNode (cfg s) (context s) b (lastChange s) (lastAction s) (lastTemp s)
    (lastTempTime s) (lastHeatTime s) (lastCoolTime s) (lastSend s) (setpoint s)
    (override s) (outbox s).

(** [initSetpoint] (line 302) *)
Definition initSetpoint : M unit :=
  s ← gets id;
  if negb (hasSetpoint (cfg s)) then mret tt
  else
    let defaultSetpoint :=
      if mode_eqb (defaultMode (cfg s)) Heat then getHeatSetpoint s else getCoolSetpoint s in
    modify (set_setpoint (Some (mkSetpointStore None None defaultSetpoint))).

(** [init] (line 451).  [initOverride], [initAction] and [initMode] only
    build the accessor objects, whose fields start [undefined]; the MQTT
    client and the timer belong to the host. *)
Definition init : M unit :=
  initSetpoint;;
  modify (set_starting false).

Definition initial (c : Config) (ctx : gmap string value) : Node :=
  exec init (createNode c ctx).

(** Everything the host can make the node do after [init]. *)
Inductive event : Type :=
| Input (msg : InputMsg)
| MqttIn (msgTopic payload : string)
| MqttStatus
| Tick.

Definition handle (now : Z) (e : event) : M unit :=
  match e with
  | Input msg => onInput now msg
  | MqttIn tp payload => onMqttIn now tp payload
  | MqttStatus => updateStatus now
  | Tick => tick now
  end.

Definition step (s : Node) (te : Z * event) : Node :=
  exec (handle (fst te) (snd te)) s.

Definition run (s : Node) (trace : list (Z * event)) : Node :=
  fold_left step trace s.

(** [reachable c ctx clockOk s]: [s] is the node after some events, each at
    a clock reading that satisfies [clockOk]. *)
Inductive reachable (c : Config) (ctx : gmap string value) (clockOk : Z -> Prop)
  : Node -> Prop :=
| reach_init : reachable c ctx clockOk (initial c ctx)
| reach_step s now e :
    reachable c ctx clockOk s -> clockOk now ->
    reachable c ctx clockOk (step s (now, e)).

(* ------------------------------------------------------------------ *)
(** ** Predicates used to state the properties *)

(** A recorded temperature carries the instant it was recorded at. *)
Definition tracker_wf (s : Node) : Prop :=
  lastTemp s <> None -> lastTempTime s <> None.

(** The acceptance rule for a reading, as the specification words it:
    a number within the range, and no prior value, or a small jump, or a
    long enough wait since the last accepted reading. *)
Definition readingAcceptable (now : Z) (temp : option number) (s : Node) : Prop :=
  exists t,
    temp = Some t /\ Num.isNaN t = false /\
    (minTemp (cfg s) <=? t)%num = true /\ (t <=? maxTemp (cfg s))%num = true /\
    (lastTemp s = None \/
     (exists l, lastTemp s = Some l /\ (Num.abs (t - l) <=? tolerance (cfg s))%num = true) \/
     (exists t0, lastTempTime s = Some t0 /\
                 (swapDelayMs (cfg s) <? ofZ (now - t0))%num = true)).

(** More than [tempValidMs] since the store last accepted a value, or no
    value accepted yet. *)
Definition expired (c : Config) (now : Z) (st : SetpointStore) : Prop :=
  match sp_lastChange st with
  | Some t => (tempValidMs c <? ofZ (now - t))%num = true
  | None => True
  end.

(** The default the store captures in [initSetpoint]. *)
Definition capturedDefault (c : Config) (ctx : gmap string value) : value :=
  let s := createNode c ctx in
  if mode_eqb (defaultMode c) Heat then getHeatSetpoint s else getCoolSetpoint s.

(** The clock has run past [keepAliveMs] since the epoch: with nothing
    sent yet, [isConnected] compares exactly this. *)
Definition pastKeepAlive (c : Config) (now : Z) : Prop :=
  (ofZ now <? keepAliveMs c)%num = false.

(** [c] relates every node to the node it leaves, thrown or not. *)
Definition relates {A : Type} (R : Node -> Node -> Prop) (c : M A) : Prop :=
  forall s, R s (exec c s).

(** What the store may become: it never appears or disappears, and keeps
    its captured default. *)
Definition store_rel (a b : option SetpointStore) : Prop :=
  match a, b with
  | Some x, Some y => sp_defaultSetpoint x = sp_defaultSetpoint y
  | None, None => True
  | _, _ => False
  end.

(** The footprint of the command handlers: they leave the configuration,
    the context store, the tracker and [lastSend] alone. *)
Definition quiet (s s' : Node) : Prop :=
  cfg s' = cfg s /\ context s' = context s /\ starting s' = starting s /\
  lastTemp s' = lastTemp s /\ lastTempTime s' = lastTempTime s /\
  lastSend s' = lastSend s /\ store_rel (setpoint s) (setpoint s').

(** The footprint of publishing: the action is left as it is. *)
Definition sameAction (s s' : Node) : Prop := lastAction s' = lastAction s.

(** The footprint of any handler, the timer tick included. *)
Definition frame (s s' : Node) : Prop :=
  cfg s' = cfg s /\ context s' = context s /\ starting s' = starting s /\
  (tracker_wf s -> tracker_wf s') /\ store_rel (setpoint s) (setpoint s').

(** [c] keeps [P], thrown or not. *)
Definition preserves {A : Type} (P : Node -> Prop) (c : M A) : Prop :=
  forall s, P s -> P (exec c s).

(** [n] passes the range test of [setpoint.set] and [updateTemperature]. *)
Definition inRange (c : Config) (n : number) : Prop :=
  (n >=? minTemp c)%num = true /\ (n <=? maxTemp c)%num = true.

(** A store holds a value and its instant together, and the value passed
    the range test. *)
Definition store_ok (c : Config) (st : SetpointStore) : Prop :=
  match sp_current st, sp_lastChange st with
  | Some n, Some _ => inRange c n
  | None, None => True
  | _, _ => False
  end.

Definition node_store_ok (c : Config) (s : Node) : Prop :=
  cfg s = c /\ forall st, setpoint s = Some st -> store_ok c st.

(** Nothing recorded, nothing running. *)
Definition idle (s : Node) : Prop :=
  lastTemp s = None /\
  (lastAction s = None \/ lastAction s = Some NoAction) /\
  lastHeatTime s = None /\ lastCoolTime s = None.

Definition isPublish (o : output) : bool :=
  match o with Publish _ _ => true | _ => false end.

(** Nothing was ever handed to the broker. *)
Definition silent (c : Config) (s : Node) : Prop :=
  cfg s = c /\ lastSend s = None /\ existsb isPublish (outbox s) = false.

(** [advertise], [broker] and [topic] are all there (line 250). *)
Definition canPublish (c : Config) : bool :=
  advertise c && broker c &&
  match topic c with
  | Some tp => negb (String.eqb tp EmptyString)
  | None => false
  end.

(** The fields the stamping and the cutoff of a tick may touch are
    [lastAction] and the two run stamps; the rest is as before. *)
Definition sameButRun (s s' : Node) : Prop :=
  cfg s' = cfg s /\ context s' = context s /\ starting s' = starting s /\
  lastChange s' = lastChange s /\ lastTemp s' = lastTemp s /\
  lastTempTime s' = lastTempTime s /\ lastSend s' = lastSend s /\
  setpoint s' = setpoint s /\ override s' = override s /\ outbox s' = outbox s.

(** On a node that has a setpoint store, [c] returns normally and leaves
    a store. *)
Definition returnsWithStore {A : Type} (c : M A) : Prop :=
  forall s, setpoint s <> None ->
    (exists a, fst (c s) = Ok a) /\ setpoint (exec c s) <> None.

(** The mode [mode.set] selects for a value (lines 365-373). *)
Definition selectedMode (c : Config) (v : value) : mode :=
  if strictEqStr v "off" then Off
  else if strictEqStr v "heat" && hasHeating c then Heat
  else if strictEqStr v "cool" && hasCooling c then Cool
  else Auto.

(* ------------------------------------------------------------------ *)
(** ** Sample controllers *)

Definition rawSample (climateType : string) (keepAliveMins : Z) : RawConfig :=
  mkRawConfig "Lounge" "lounge-climate" climateType
    (VNum (ofZ keepAliveMins)) (VNum (ofZ 5)) (ofZ 30)
    (VNum (ofZ 18)) (VNum (ofZ 24)) (VStr "0.2") (VNum (ofZ 5)) (VNum (ofZ 25))
    (VNum (ofZ 60)) (VNum (ofZ 60)) true true (Some "home/lounge-climate").

(** The editor's defaults: keep-alive 15 min, boost 30 min, tolerance 0.2,
    range 5..25, validity and swap delay 60 min; setpoints 18 and 24. *)
Definition heatOnly : Config := createConfig (rawSample "heat" 15).
Definition coolOnly : Config := createConfig (rawSample "cool" 15).
Definition heatCool : Config := createConfig (rawSample "both" 15).
Definition manual : Config := createConfig (rawSample "manual" 15).

(** A keep-alive of 10^8 minutes: longer than the time since the epoch. *)
Definition heatOnlyLongKeepAlive : Config := createConfig (rawSample "heat" 100000000).

(** The same controller with other settings: the lower bound of the
    range, the keep-alive, and whether it advertises (a broker and topic
    come with [advertise]). *)
Definition rawCustom (climateType : string) (keepAliveMins : Z) (minT : Z)
  (adv : bool) : RawConfig :=
  mkRawConfig "Lounge" "lounge-climate" climateType
    (VNum (ofZ keepAliveMins)) (VNum (ofZ 5)) (ofZ 30)
    (VNum (ofZ 18)) (VNum (ofZ 24)) (VStr "0.2") (VNum (ofZ minT)) (VNum (ofZ 25))
    (VNum (ofZ 60)) (VNum (ofZ 60)) adv adv
    (if adv then Some "home/lounge-climate" else None).

(** The editor's default leaves [advertise] off. *)
Definition heatOnlyOffline : Config := createConfig (rawCustom "heat" 15 5 false).

(** A range that starts below zero. *)
Definition frostGuard : Config := createConfig (rawCustom "heat" 15 (-10) true).

(** Keep-alive 0, which the editor describes as no keep-alive. *)
Definition heatOnlyNoKeepAlive : Config := createConfig (rawCustom "heat" 0 5 true).

(** A climate type the node does not know. *)
Definition unknownType : Config := createConfig (rawCustom "fan" 15 5 true).

(** A clock reading in November 2023, and spans in milliseconds. *)
Definition t2023 : Z := 1700000000000.
Definition minutes (n : Z) : Z := n * 60 * 1000.

(** A tolerance of 0.5 on a range from 0, and that controller with the
    double 0.3 as its first reading. *)
Definition wideBand : Config :=
  createConfig
    (mkRawConfig "Lounge" "lounge-climate" "heat"
       (VNum (ofZ 15)) (VNum (ofZ 5)) (ofZ 30)
       (VNum (ofZ 18)) (VNum (ofZ 24)) (VStr "0.5") (VNum (ofZ 0)) (VNum (ofZ 25))
       (VNum (ofZ 60)) (VNum (ofZ 60)) true true (Some "home/lounge-climate")).

Definition wideBandAt03 : Node :=
  exec (updateTemperature t2023 (Some (round64 0.3))) (initial wideBand ∅).

(** Input messages with one own property. *)
Definition msgPayload (v : value) : InputMsg := mkInputMsg (Some v) None None None None None.
Definition msgSetpoint (v : value) : InputMsg := mkInputMsg None None None (Some v) None None.

(** The heat-only controller after a setpoint request for 21 degrees. *)
Definition heatOnlyAt21 : Node :=
  run (initial heatOnly ∅) [(t2023, Input (msgSetpoint (VStr "21")))].

(** The heat-and-cool controller after a request for mode [heat]. *)
Definition heatCoolInHeat : Node :=
  run (initial heatCool ∅) [(t2023, Input (msgPayload (VStr "heat")))].

(** ... and after a request for mode [off] one second later. *)
Definition heatOnlyAt21Off : Node :=
  step heatOnlyAt21 (t2023 + 1000, Input (msgPayload (VStr "off"))).

(** [n] timer ticks, [period] milliseconds apart, the first at [start]. *)
Fixpoint ticksEvery (start period : Z) (n : nat) : list (Z * event) :=
  match n with
  | O => []
  | S n' => (start, Tick) :: ticksEvery (start + period) period n'
  end.

(** The action after each event of a trace. *)
Fixpoint actionsAlong (s : Node) (trace : list (Z * event)) : list (option action) :=
  match trace with
  | [] => []
  | te :: rest => lastAction (step s te) :: actionsAlong (step s te) rest
  end.

(** A heat-only controller in mode [heat] that has published its status
    and recorded 16 degrees, through the node's own methods. *)
Definition heatOnlyCold : Node :=
  exec (updateTemperature t2023 (Some (Fin 16)))
    (exec (sendStatusUpdate t2023)
       (step (initial heatOnly ∅) (t2023, Input (msgPayload (VStr "heat"))))).

(** 31 minutes of ticks, one every 5 seconds (the configured cycle). *)
Definition longRun : list (Z * event) := ticksEvery (t2023 + 5000) 5000 372.

(* ================================================================== *)
(** * Properties *)

(** Closed statements are settled by evaluation, one conjunct at a time. *)
Ltac evaluate :=
  repeat match goal with |- _ /\ _ => split end; vm_compute; reflexivity.

(** ** [parseFloat] on a few inputs *)

Example parseFloat_decimal : parseFloat (VStr " 21.5C") = Fin (43 # 2).
Proof. reflexivity. Qed.

Example parseFloat_exponent : parseFloat (VStr "-1.5e2") = Fin (-150).
Proof. reflexivity. Qed.

Example parseFloat_dot : parseFloat (VStr ".") = NaN.
Proof. reflexivity. Qed.

Example parseFloat_word : parseFloat (VStr "heat") = NaN.
Proof. reflexivity. Qed.

Example parseFloat_null : parseFloat VNull = NaN.
Proof. reflexivity. Qed.

Example parseFloat_infinity : parseFloat (VStr "-Infinity") = NegInf.
Proof. reflexivity. Qed.

(** A decimal is read as the double nearest to it; beyond the largest
    double it is an infinity, below half the smallest it is zero. *)
Example parseFloat_nearest_double :
  parseFloat (VStr "0.2") = Fin (3602879701896397 # 18014398509481984) /\
  parseFloat (VStr "1.7976931348623159e308") = PosInf /\
  parseFloat (VStr "-1e400") = NegInf /\
  parseFloat (VStr "2e-324") = Fin 0.
Proof. evaluate. Qed.

(** A no-break space (U+00A0, the bytes 194 and 160) is skipped like a
    space. *)
Example parseFloat_no_break_space :
  parseFloat (VStr (String (ascii_of_N 194) (String (ascii_of_N 160) "21"))) = Fin 21.
Proof. evaluate. Qed.

(** ** Arithmetic on doubles *)

(** [0.1 + 0.2] is [0.30000000000000004], and [4.03 * 1000 * 60] is
    [241800.00000000003], not 241800. *)
Example arithmetic_rounds :
  (parseFloat (VStr "0.1") + parseFloat (VStr "0.2"))%num
  = parseFloat (VStr "0.30000000000000004") /\
  (parseFloat (VStr "0.1") + parseFloat (VStr "0.2"))%num <> parseFloat (VStr "0.3") /\
  (parseFloat (VStr "4.03") * ofZ 1000 * ofZ 60)%num
  = Fin (8308184737382401 # 34359738368) /\
  (parseFloat (VStr "4.03") * ofZ 1000 * ofZ 60)%num
  = parseFloat (VStr "241800.00000000003").
Proof.
  split; [vm_compute; reflexivity|].
  split; [vm_compute; discriminate|].
  split; vm_compute; reflexivity.
Qed.

Example heatOnly_capabilities :
  (hasHeating heatOnly, hasCooling heatOnly, hasSetpoint heatOnly, defaultMode heatOnly)
  = (true, false, true, Heat).
Proof. reflexivity. Qed.

Example manual_capabilities :
  (hasHeating manual, hasCooling manual, hasSetpoint manual, defaultMode manual)
  = (true, true, false, Heat).
Proof. reflexivity. Qed.

Example heatOnly_keepAliveMs : keepAliveMs heatOnly = Fin 900000.
Proof. reflexivity. Qed.

(** ** Comparisons of numbers *)

Lemma Qltb_lt (p q : Q) : Num.Qltb p q = true <-> (p < q)%Q.
Proof.
  unfold Num.Qltb. rewrite negb_true_iff, <- not_true_iff_false, Qle_bool_iff.
  split; [apply Qnot_le_lt | apply Qlt_not_le].
Qed.

Lemma ltb_Fin (p q : Q) : (Fin p <? Fin q)%num = true <-> (p < q)%Q.
Proof. apply Qltb_lt. Qed.

Lemma leb_Fin (p q : Q) : (Fin p <=? Fin q)%num = true <-> (p <= q)%Q.
Proof. apply Qle_bool_iff. Qed.

Lemma ltb_irrefl_Fin (p q : Q) : (p == q)%Q -> (Fin p <? Fin q)%num = false.
Proof.
  intros E. apply not_true_iff_false. rewrite ltb_Fin. lra.
Qed.

(** [a < b] rules out [b <= a], NaN and the infinities included. *)
Lemma ltb_leb_false (a b : number) : (a <? b)%num = true -> (b <=? a)%num = false.
Proof.
  destruct a as [| |p|], b as [| |q|]; simpl; try congruence.
  rewrite Qltb_lt. intros H. apply not_true_iff_false. rewrite Qle_bool_iff. lra.
Qed.

Lemma leb_not_NaN (a b : number) : (a <=? b)%num = true -> Num.isNaN b = false.
Proof. destruct a, b; simpl; congruence. Qed.

(** ** Rounding to binary64 *)

Lemma pow2_pos (k : Z) : (0 < pow2 k)%Q.
Proof. apply Qpower_0_lt. reflexivity. Qed.

Lemma pow2_add (a b : Z) : (pow2 (a + b) == pow2 a * pow2 b)%Q.
Proof. apply Qpower_plus. discriminate. Qed.

Lemma pow2_le (a b : Z) : a <= b -> (pow2 a <= pow2 b)%Q.
Proof. intros H. apply Qpower_le_compat_l; [exact H | discriminate]. Qed.

Lemma pow2_inject (k : Z) : 0 <= k -> (pow2 k == inject_Z (2 ^ k))%Q.
Proof. intros H. unfold pow2. rewrite (Zpower_Qpower 2 k H). reflexivity. Qed.

Lemma pow2_cancel (k : Z) : (pow2 k * pow2 (- k) == 1)%Q.
Proof. rewrite <- pow2_add, Z.add_opp_diag_r. reflexivity. Qed.

Lemma Qnum_pos (q : Q) : (0 < q)%Q <-> 0 < Qnum q.
Proof. unfold Qlt. simpl. rewrite Z.mul_1_r. reflexivity. Qed.

Lemma ilog2_spec (q : Q) :
  (0 < q)%Q -> (pow2 (ilog2 q) <= q /\ q < pow2 (ilog2 q + 1))%Q.
Proof.
  intros Hq. pose proof (proj1 (Qnum_pos q) Hq) as Hn.
  set (n := Qnum q) in *. set (d := Zpos (Qden q)).
  assert (Hd : 0 < d) by reflexivity.
  destruct (Z.log2_spec n Hn) as [Hn1 Hn2].
  destruct (Z.log2_spec d Hd) as [Hd1 Hd2].
  assert (Hqd : (q * inject_Z d == inject_Z n)%Q).
  { unfold n, d. destruct q as [qn qd]. unfold Qeq. simpl. rewrite Pos.mul_1_r. ring. }
  pose proof (Z.log2_nonneg n) as Hln. pose proof (Z.log2_nonneg d) as Hld.
  set (ln := Z.log2 n) in *. set (ld := Z.log2 d) in *.
  assert (HN1 : (pow2 ln <= inject_Z n)%Q).
  { rewrite (pow2_inject ln Hln), <- Zle_Qle. exact Hn1. }
  assert (HN2 : (inject_Z n < pow2 (ln + 1))%Q).
  { rewrite (pow2_inject (ln + 1)) by lia. rewrite <- Zlt_Qlt.
    replace (ln + 1) with (Z.succ ln) by lia. exact Hn2. }
  assert (HD1 : (pow2 ld <= inject_Z d)%Q).
  { rewrite (pow2_inject ld Hld), <- Zle_Qle. exact Hd1. }
  assert (HD2 : (inject_Z d < pow2 (ld + 1))%Q).
  { rewrite (pow2_inject (ld + 1)) by lia. rewrite <- Zlt_Qlt.
    replace (ld + 1) with (Z.succ ld) by lia. exact Hd2. }
  assert (HD0 : (0 < inject_Z d)%Q).
  { change 0%Q with (inject_Z 0). rewrite <- Zlt_Qlt. exact Hd. }
  assert (Hup : (q < pow2 (ln - ld + 1))%Q).
  { pose proof (pow2_add (ln - ld + 1) ld) as E.
    replace (ln - ld + 1 + ld) with (ln + 1) in E by lia.
    pose proof (pow2_pos (ln - ld + 1)). pose proof (pow2_pos ld).
    apply Qnot_le_lt. intros Hc.
    assert ((pow2 (ln - ld + 1) * pow2 ld <= q * inject_Z d)%Q).
    { apply Qle_trans with (pow2 (ln - ld + 1) * inject_Z d)%Q.
      - apply Qmult_le_l; assumption.
      - apply Qmult_le_r; assumption. }
    lra. }
  assert (Hlow : (pow2 (ln - ld - 1) < q)%Q).
  { pose proof (pow2_add (ln - ld - 1) (ld + 1)) as E.
    replace (ln - ld - 1 + (ld + 1)) with ln in E by lia.
    pose proof (pow2_pos (ln - ld - 1)). pose proof (pow2_pos (ld + 1)).
    apply Qnot_le_lt. intros Hc.
    assert ((q * inject_Z d <= pow2 (ln - ld - 1) * inject_Z d)%Q).
    { apply Qmult_le_r; assumption. }
    assert ((pow2 (ln - ld - 1) * inject_Z d < pow2 (ln - ld - 1) * pow2 (ld + 1))%Q).
    { apply Qmult_lt_l; assumption. }
    lra. }
  unfold ilog2. fold n d ln ld.
  destruct (Qle_bool (pow2 (ln - ld)) q) eqn:E.
  - apply Qle_bool_iff in E. split; assumption.
  - assert (Hlt : (q < pow2 (ln - ld))%Q).
    { apply Qnot_le_lt. intros Hc. apply Qle_bool_iff in Hc. congruence. }
    replace (ln - ld - 1 + 1) with (ln - ld) by lia.
    split; [apply Qlt_le_weak|]; assumption.
Qed.

Lemma ilog2_mono (a b : Q) : (0 < a)%Q -> (a <= b)%Q -> ilog2 a <= ilog2 b.
Proof.
  intros Ha Hab. assert (Hb : (0 < b)%Q) by lra.
  destruct (ilog2_spec a Ha) as [Ha1 _]. destruct (ilog2_spec b Hb) as [_ Hb2].
  assert (H : (pow2 (ilog2 a) < pow2 (ilog2 b + 1))%Q) by lra.
  apply Qpower_lt_compat_l_inv in H; [lia | reflexivity].
Qed.

Lemma rne_bounds (x : Q) : Qfloor x <= rne x <= Qfloor x + 1.
Proof.
  unfold rne. destruct (x - inject_Z (Qfloor x) ?= 1 # 2)%Q;
    [destruct (Z.even (Qfloor x))| |]; lia.
Qed.

Lemma rne_inject (z : Z) : rne (inject_Z z) = z.
Proof.
  unfold rne. rewrite Qfloor_Z.
  assert (E : (inject_Z z - inject_Z z ?= 1 # 2)%Q = Lt).
  { rewrite <- Qlt_alt. lra. }
  rewrite E. reflexivity.
Qed.

Lemma rne_mono (x y : Q) : (x <= y)%Q -> rne x <= rne y.
Proof.
  intros Hxy. pose proof (Qfloor_resp_le x y Hxy) as Hf.
  pose proof (rne_bounds x) as Bx. pose proof (rne_bounds y) as By.
  destruct (Z.eq_dec (Qfloor x) (Qfloor y)) as [E | N]; [|lia].
  unfold rne in *. rewrite <- E in *.
  destruct (Qcompare_spec (x - inject_Z (Qfloor x)) (1 # 2)) as [Hx | Hx | Hx];
    destruct (Qcompare_spec (y - inject_Z (Qfloor x)) (1 # 2)) as [Hy | Hy | Hy];
    try destruct (Z.even (Qfloor x)); try lia; lra.
Qed.

Lemma roundMagnitude_mono (a b : Q) :
  (0 < a)%Q -> (a <= b)%Q -> (roundMagnitude a <= roundMagnitude b)%Q.
Proof.
  intros Ha Hab. assert (Hb : (0 < b)%Q) by lra.
  pose proof (ilog2_mono a b Ha Hab) as Hk.
  destruct (ilog2_spec a Ha) as [_ Ha2]. destruct (ilog2_spec b Hb) as [Hb1 _].
  unfold roundMagnitude, grid.
  set (ka := ilog2 a) in *. set (kb := ilog2 b) in *.
  set (ea := Z.max (ka - 52) (-1074)). set (eb := Z.max (kb - 52) (-1074)).
  assert (He : ea <= eb) by lia.
  destruct (Z.eq_dec ea eb) as [E | N].
  - rewrite <- E. pose proof (pow2_pos ea). pose proof (pow2_pos (- ea)).
    apply Qmult_le_r; [assumption|]. rewrite <- Zle_Qle. apply rne_mono.
    apply Qmult_le_r; assumption.
  - assert (Hlt : ea < eb) by lia.
    assert (Heb : eb = kb - 52) by lia.
    set (u := Z.max (ka + 1) ea).
    assert (Hu : u <= kb) by lia.
    (* the rounded a stays below 2^u *)
    assert (Hra : (inject_Z (rne (a * pow2 (- ea))) * pow2 ea <= pow2 u)%Q).
    { assert (Hau : (a <= pow2 u)%Q).
      { pose proof (pow2_le (ka + 1) u ltac:(lia)). lra. }
      assert (Hint : (pow2 u * pow2 (- ea) == inject_Z (2 ^ (u - ea)))%Q).
      { rewrite <- pow2_add. apply pow2_inject. lia. }
      assert (Hr : rne (a * pow2 (- ea)) <= 2 ^ (u - ea)).
      { rewrite <- (rne_inject (2 ^ (u - ea))). apply rne_mono.
        rewrite <- Hint. apply Qmult_le_r; [apply pow2_pos | exact Hau]. }
      apply Qle_trans with (inject_Z (2 ^ (u - ea)) * pow2 ea)%Q.
      - apply Qmult_le_r; [apply pow2_pos|]. rewrite <- Zle_Qle. exact Hr.
      - rewrite <- Hint, <- Qmult_assoc, (Qmult_comm (pow2 (- ea))), pow2_cancel.
        lra. }
    (* the rounded b stays above 2^kb *)
    assert (Hrb : (pow2 kb <= inject_Z (rne (b * pow2 (- eb))) * pow2 eb)%Q).
    { assert (Hint : (pow2 kb * pow2 (- eb) == inject_Z (2 ^ 52))%Q).
      { rewrite <- pow2_add. replace (kb + - eb) with 52 by lia.
        apply pow2_inject. lia. }
      assert (Hr : 2 ^ 52 <= rne (b * pow2 (- eb))).
      { rewrite <- (rne_inject (2 ^ 52)) at 1. apply rne_mono.
        rewrite <- Hint. apply Qmult_le_r; [apply pow2_pos | exact Hb1]. }
      apply Qle_trans with (inject_Z (2 ^ 52) * pow2 eb)%Q.
      - rewrite <- Hint, <- Qmult_assoc, (Qmult_comm (pow2 (- eb))), pow2_cancel.
        lra.
      - apply Qmult_le_r; [apply pow2_pos|]. rewrite <- Zle_Qle. exact Hr. }
    pose proof (pow2_le u kb Hu). lra.
Qed.

Lemma roundMagnitude_nonneg (a : Q) : (0 < a)%Q -> (0 <= roundMagnitude a)%Q.
Proof.
  intros Ha. unfold roundMagnitude.
  apply Qmult_le_0_compat; [|apply Qlt_le_weak, pow2_pos].
  change 0%Q with (inject_Z 0). rewrite <- Zle_Qle.
  rewrite <- (rne_inject 0). apply rne_mono.
  apply Qmult_le_0_compat; [lra | apply Qlt_le_weak, pow2_pos].
Qed.

Lemma Qnum_neg (q : Q) : (q < 0)%Q <-> Qnum q < 0.
Proof. unfold Qlt. simpl. rewrite Z.mul_1_r. reflexivity. Qed.

Lemma Qnum_zero (q : Q) : (q == 0)%Q <-> Qnum q = 0.
Proof. unfold Qeq. simpl. rewrite Z.mul_1_r. reflexivity. Qed.

Lemma overflows_spec (r : Q) : overflows r = Qle_bool (pow2 1024) r.
Proof.
  unfold overflows. destruct (1024 <=? Z.log2 (Qnum r))%Z eqn:E; [reflexivity|].
  cbn [andb]. symmetry. apply Bool.not_true_is_false. intros H.
  apply Qle_bool_iff in H. apply Z.leb_gt in E.
  rewrite (pow2_inject 1024) in H by lia.
  unfold Qle in H. cbn [Qnum Qden inject_Z] in H.
  assert (Hn : Qnum r < 2 ^ 1024).
  { destruct (Z.le_gt_cases (Qnum r) 0) as [Hle|Hgt].
    - pose proof (Z.pow_pos_nonneg 2 1024). lia.
    - apply Z.log2_lt_pow2; [exact Hgt | exact E]. }
  pose proof (Pos2Z.is_pos (Qden r)).
  assert (2 ^ 1024 * 1 <= 2 ^ 1024 * Z.pos (Qden r)).
  { apply Z.mul_le_mono_nonneg_l; [apply Z.pow_nonneg|]; lia. }
  lia.
Qed.

(** What [round64] returns, by the sign of its argument. *)
Lemma round64_cases (q : Q) :
  ((q == 0)%Q /\ round64 q = Fin 0) \/
  ((0 < q)%Q /\
   ((pow2 1024 <= roundMagnitude q)%Q /\ round64 q = PosInf \/
    (roundMagnitude q < pow2 1024)%Q /\ round64 q = Fin (Qred (roundMagnitude q)))) \/
  ((q < 0)%Q /\
   ((pow2 1024 <= roundMagnitude (- q))%Q /\ round64 q = NegInf \/
    (roundMagnitude (- q) < pow2 1024)%Q /\
    round64 q = Fin (Qred (- roundMagnitude (- q))))).
Proof.
  unfold round64. rewrite !overflows_spec. destruct (Qnum q) as [|n|n] eqn:E.
  - left. split; [apply Qnum_zero, E | reflexivity].
  - right. left. split; [apply Qnum_pos; rewrite E; reflexivity|].
    destruct (Qle_bool (pow2 1024) (roundMagnitude q)) eqn:H.
    + left. split; [apply Qle_bool_iff, H | reflexivity].
    + right. split; [|reflexivity]. apply Qnot_le_lt. intros Hc.
      apply Qle_bool_iff in Hc. congruence.
  - right. right. split; [apply Qnum_neg; rewrite E; reflexivity|].
    destruct (Qle_bool (pow2 1024) (roundMagnitude (- q))) eqn:H.
    + left. split; [apply Qle_bool_iff, H | reflexivity].
    + right. split; [|reflexivity]. apply Qnot_le_lt. intros Hc.
      apply Qle_bool_iff in Hc. congruence.
Qed.

(** Rounding to binary64 keeps the order. *)
Lemma round64_mono (p q : Q) : (p <= q)%Q -> (round64 p <=? round64 q)%num = true.
Proof.
  intros Hpq.
  destruct (round64_cases p) as [[Hp ->] | [[Hp Rp] | [Hp Rp]]];
    destruct (round64_cases q) as [[Hq ->] | [[Hq Rq] | [Hq Rq]]];
    try (exfalso; lra).
  - reflexivity.
  - pose proof (roundMagnitude_nonneg q Hq).
    destruct Rq as [[_ ->] | [_ ->]]; cbn [Num.leb]; [reflexivity|].
    apply Qle_bool_iff. rewrite Qred_correct. assumption.
  - pose proof (roundMagnitude_mono p q Hp Hpq).
    destruct Rp as [[Hp1 ->] | [Hp1 ->]], Rq as [[Hq1 ->] | [Hq1 ->]]; cbn [Num.leb];
      try reflexivity; [exfalso; lra|].
    apply Qle_bool_iff. rewrite !Qred_correct. assumption.
  - pose proof (roundMagnitude_nonneg (- p) ltac:(lra)).
    destruct Rp as [[_ ->] | [_ ->]]; cbn [Num.leb]; [reflexivity|].
    apply Qle_bool_iff. rewrite Qred_correct. lra.
  - pose proof (roundMagnitude_nonneg (- p) ltac:(lra)).
    pose proof (roundMagnitude_nonneg q Hq).
    destruct Rp as [[_ ->] | [_ ->]], Rq as [[_ ->] | [_ ->]]; cbn [Num.leb];
      try reflexivity.
    apply Qle_bool_iff. rewrite !Qred_correct. lra.
  - pose proof (roundMagnitude_mono (- q) (- p) ltac:(lra) ltac:(lra)).
    destruct Rp as [[Hp1 ->] | [Hp1 ->]], Rq as [[Hq1 ->] | [Hq1 ->]]; cbn [Num.leb];
      try reflexivity; [exfalso; lra|].
    apply Qle_bool_iff. rewrite !Qred_correct. lra.
Qed.

Lemma round64_zero (q : Q) : (q == 0)%Q -> round64 q = Fin 0.
Proof. intros H. apply Qnum_zero in H. unfold round64. rewrite H. reflexivity. Qed.

Lemma ltb_leb_chain (a b c : number) :
  (a <? b)%num = true -> (b <=? c)%num = true -> (c <? a)%num = false.
Proof.
  destruct a as [| |p|], b as [| |q|], c as [| |r|]; simpl; try congruence.
  rewrite Qltb_lt, Qle_bool_iff. intros H1 H2.
  apply not_true_iff_false. rewrite Qltb_lt. lra.
Qed.

(** With a tolerance that is not negative, a value below [t - tol] is not
    above [t + tol]: the two bounds are rounded, and rounding keeps their
    order. *)
Lemma below_band_not_above (cur t tol : number) :
  (tol >=? Fin 0)%num = true ->
  (cur <? t - tol)%num = true ->
  (cur >? t + tol)%num = false.
Proof.
  unfold Num.geb, Num.gtb, Num.sub.
  destruct tol as [| |q|]; simpl; try congruence; intros Hq.
  - apply Qle_bool_iff in Hq.
    destruct t as [| |r|]; try (destruct cur; simpl; congruence).
    cbn [Num.add Num.opp]. intros H. apply (ltb_leb_chain _ _ _ H).
    apply round64_mono. lra.
  - destruct cur, t; simpl; congruence.
Qed.

(** ** The action calculator *)

(** C1.  With a tolerance that is not negative, [calculateAction] returns
    [heating] exactly when the current temperature is below both
    [targetTemp - tolerance] and [heatSetpoint - tolerance], [cooling]
    exactly when it is above both [targetTemp + tolerance] and
    [coolSetpoint + tolerance], and [none] in every other case. *)
Theorem calculateAction_spec (s : Node) (currentTemp targetTemp : number) :
  let tol := tolerance (cfg s) in
  let heatSetpoint := parseFloat (getHeatSetpoint s) in
  let coolSetpoint := parseFloat (getCoolSetpoint s) in
  let needsHeat :=
    (currentTemp <? targetTemp - tol)%num = true /\
    (currentTemp <? heatSetpoint - tol)%num = true in
  let needsCool :=
    (currentTemp >? targetTemp + tol)%num = true /\
    (currentTemp >? coolSetpoint + tol)%num = true in
  (tol >=? Fin 0)%num = true ->
  (calculateAction s currentTemp targetTemp = Heating <-> needsHeat) /\
  (calculateAction s currentTemp targetTemp = Cooling <-> needsCool) /\
  (calculateAction s currentTemp targetTemp = NoAction <-> ~ needsHeat /\ ~ needsCool).
Proof.
  intros tol heatSetpoint coolSetpoint needsHeat needsCool Htol.
  pose proof (below_band_not_above currentTemp targetTemp tol Htol) as Hex.
  unfold calculateAction, needsHeat, needsCool.
  fold tol heatSetpoint coolSetpoint.
  destruct (currentTemp <? targetTemp - tol)%num eqn:A.
  - rewrite (Hex eq_refl).
    destruct (currentTemp <? heatSetpoint - tol)%num eqn:B;
      repeat split; try congruence; intuition congruence.
  - destruct (currentTemp >? targetTemp + tol)%num eqn:C;
      [destruct (currentTemp >? coolSetpoint + tol)%num eqn:D|];
      repeat split; try congruence; intuition congruence.
Qed.

Lemma calculateAction_spec_witness :
  (tolerance (cfg (initial heatCool ∅)) >=? Fin 0)%num = true /\
  calculateAction (initial heatCool ∅) (Fin 5) (round64 5.2) = NoAction /\
  calculateAction (initial heatCool ∅) (round64 4.8) (Fin 5) = NoAction /\
  calculateAction (initial heatCool ∅) (round64 4.7) (Fin 5) = Heating /\
  calculateAction (initial heatCool ∅) (round64 24.2) (Fin 24) = NoAction /\
  calculateAction (initial heatCool ∅) (round64 24.3) (Fin 24) = Cooling.
Proof.
  assert (Htol : (tolerance (cfg (initial heatCool ∅)) >=? Fin 0)%num = true).
  { vm_compute. reflexivity. }
  split; [exact Htol|].
  pose proof (calculateAction_spec (initial heatCool ∅) (Fin 5) (round64 5.2) Htol)
    as (_ & _ & H1).
  pose proof (calculateAction_spec (initial heatCool ∅) (round64 4.8) (Fin 5) Htol)
    as (_ & _ & H2).
  pose proof (calculateAction_spec (initial heatCool ∅) (round64 4.7) (Fin 5) Htol)
    as (H3 & _ & _).
  pose proof (calculateAction_spec (initial heatCool ∅) (round64 24.2) (Fin 24) Htol)
    as (_ & _ & H4).
  pose proof (calculateAction_spec (initial heatCool ∅) (round64 24.3) (Fin 24) Htol)
    as (_ & H5 & _).
  refine (conj _ (conj _ (conj _ (conj _ _)))).
  - apply H1. split; intros [A B]; vm_compute in A, B; congruence.
  - apply H2. split; intros [A B]; vm_compute in A, B; congruence.
  - apply H3. split; vm_compute; reflexivity.
  - apply H4. split; intros [A B]; vm_compute in A, B; congruence.
  - apply H5. split; vm_compute; reflexivity.
Defined.

(** [heating] needs no assumption on the tolerance: it is the first
    branch of the source. *)
Lemma calculateAction_heating_iff (s : Node) (cur target : number) :
  calculateAction s cur target = Heating <->
  (cur <? target - tolerance (cfg s))%num = true /\
  (cur <? parseFloat (getHeatSetpoint s) - tolerance (cfg s))%num = true.
Proof.
  unfold calculateAction.
  repeat match goal with |- context [if ?b then _ else _] => destruct b end;
    intuition congruence.
Qed.

(** The bounds of the band are doubles: [5.2 - 0.2] is 5 and [5 - 0.2] is
    the double 4.8, so a temperature of exactly 5 against a target of 5.2,
    or of 4.8 against 5, starts nothing. *)
Example calculateAction_boundaries :
  (round64 5.2 - round64 0.2)%num = Fin 5 /\
  (Fin 5 - round64 0.2)%num = round64 4.8 /\
  calculateAction (initial heatCool ∅) (round64 17.8) (Fin 18) = NoAction /\
  calculateAction (initial heatCool ∅) (round64 17.7) (Fin 18) = Heating /\
  calculateAction (initial heatCool ∅) (Fin 20) (Fin 24) = NoAction /\
  calculateAction (initial heatCool ∅) NaN (Fin 18) = NoAction.
Proof. evaluate. Qed.

(** ** The liveness predicate *)

(** C8.  With a status sent at [lastSend], [isConnected] holds exactly
    when [now - lastSend] is strictly below [keepAliveMs]; at exactly
    [keepAliveMs] elapsed it is false. *)
Theorem isConnected_iff (now sent : Z) (s : Node) :
  lastSend s = Some sent ->
  (isConnected now s = true <->
   (ofZ (now - sent) <? keepAliveMs (cfg s))%num = true) /\
  (forall k : Q, keepAliveMs (cfg s) = Fin k ->
     (isConnected now s = true <-> (inject_Z (now - sent) < k)%Q) /\
     ((inject_Z (now - sent) == k)%Q -> isConnected now s = false)).
Proof.
  intros Hsent. unfold isConnected. rewrite Hsent. simpl.
  split; [tauto|]. intros k Hk. rewrite Hk. unfold ofZ. split.
  - apply ltb_Fin.
  - apply ltb_irrefl_Fin.
Qed.

Lemma isConnected_iff_witness :
  isConnected (t2023 + minutes 15) (set_lastSend (Some t2023) (initial heatOnly ∅)) = false /\
  isConnected (t2023 + minutes 15 - 1) (set_lastSend (Some t2023) (initial heatOnly ∅)) = true.
Proof.
  split.
  - destruct (isConnected_iff (t2023 + minutes 15) t2023
                (set_lastSend (Some t2023) (initial heatOnly ∅)) eq_refl) as [_ H].
    destruct (H (900000 : Q) eq_refl) as [_ Heq]. apply Heq. reflexivity.
  - destruct (isConnected_iff (t2023 + minutes 15 - 1) t2023
                (set_lastSend (Some t2023) (initial heatOnly ∅)) eq_refl) as [H _].
    apply H. reflexivity.
Defined.

(** ** The temperature tracker and [updateAction] *)

(** C10.  While no temperature is recorded, [updateAction] sets
    [lastAction] to [none] and does nothing else: it neither reads the
    setpoint store (it cannot throw) nor calls [calculateAction].  The
    action the node reports afterwards is [none], whatever it was before
    and whatever the setpoints are. *)
Theorem updateAction_without_temperature (now : Z) (s : Node) :
  lastTemp s = None ->
  updateAction now s = (Ok tt, set_lastAction (Some NoAction) s) /\
  lastAction (exec (updateAction now) s) = Some NoAction /\
  action_get (exec (updateAction now) s) = NoAction /\
  setpoint (exec (updateAction now) s) = setpoint s /\
  outbox (exec (updateAction now) s) = outbox s.
Proof.
  intros H.
  assert (E : updateAction now s = (Ok tt, set_lastAction (Some NoAction) s)).
  { unfold updateAction, mbind, M_bind, gets. simpl. rewrite H. reflexivity. }
  unfold exec. rewrite E. repeat split.
Qed.

Lemma updateAction_without_temperature_witness :
  let s := set_lastAction (Some Heating) (initial heatOnly ∅) in
  lastTemp s = None /\
  lastAction s = Some Heating /\
  updateAction t2023 s = (Ok tt, set_lastAction (Some NoAction) s) /\
  lastAction (exec (updateAction t2023) s) = Some NoAction /\
  action_get (exec (updateAction t2023) s) = NoAction /\
  setpoint (exec (updateAction t2023) s) = setpoint s /\
  outbox (exec (updateAction t2023) s) = outbox s.
Proof.
  intros s.
  assert (H : lastTemp s = None) by (vm_compute; reflexivity).
  split; [exact H|]. split; [vm_compute; reflexivity|].
  exact (updateAction_without_temperature t2023 s H).
Defined.

(** The test in the source is the acceptance rule of the specification;
    [tracker_wf] gives the instant of the last accepted reading, in place
    of the [|| 0] fallback of the source. *)
Lemma acceptsTemperature_iff (now : Z) (temp : option number) (s : Node) :
  tracker_wf s ->
  acceptsTemperature now temp s = true <-> readingAcceptable now temp s.
Proof.
  intros Hwf. unfold acceptsTemperature, readingAcceptable, Num.geb, Num.gtb.
  destruct temp as [t|].
  2:{ split; [discriminate | intros (t & Ht & _); discriminate]. }
  rewrite !andb_true_iff. split.
  - intros [[Hmin Hmax] Hlast]. exists t.
    split; [reflexivity|]. split; [apply (leb_not_NaN _ _ Hmin)|].
    split; [exact Hmin|]. split; [exact Hmax|].
    destruct (lastTemp s) as [l|] eqn:El; [right | left; reflexivity].
    apply orb_true_iff in Hlast as [Hjump | Hwait].
    + left. exists l. split; [reflexivity | exact Hjump].
    + right. destruct (lastTempTime s) as [t0|] eqn:Et.
      * exists t0. split; [reflexivity | exact Hwait].
      * exfalso. apply Hwf; [rewrite El; discriminate | exact Et].
  - intros (t' & Ht & _ & Hmin & Hmax & Hlast). injection Ht as <-.
    split; [split; assumption|].
    destruct (lastTemp s) as [l|] eqn:El; [|reflexivity].
    apply orb_true_iff.
    destruct Hlast as [Hnone | [(l' & Hl & Hjump) | (t0 & Ht0 & Hwait)]].
    + discriminate.
    + injection Hl as <-. left. exact Hjump.
    + right. rewrite Ht0. exact Hwait.
Qed.

Lemma updateTemperature_unfold (now : Z) (temp : option number) (s : Node) :
  updateTemperature now temp s
  = (Ok tt, if acceptsTemperature now temp s then set_lastTemp temp (Some now) s else s).
Proof.
  unfold updateTemperature, mbind, M_bind, gets, when. simpl.
  destruct (acceptsTemperature now temp s); reflexivity.
Qed.

(** C4.  [updateTemperature(temp)] records [temp] with the current
    instant exactly when [temp] is a number within [minTemp, maxTemp] and
    there is no prior value, or the jump is within [tolerance], or more
    than [swapDelayMs] have passed since the last accepted reading; a
    rejected reading leaves the node, value and instant, as it was. *)
Theorem updateTemperature_records_iff (now : Z) (temp : option number) (s : Node) :
  tracker_wf s ->
  (readingAcceptable now temp s ->
   updateTemperature now temp s = (Ok tt, set_lastTemp temp (Some now) s) /\
   lastTemp (exec (updateTemperature now temp) s) = temp /\
   lastTempTime (exec (updateTemperature now temp) s) = Some now) /\
  (~ readingAcceptable now temp s ->
   updateTemperature now temp s = (Ok tt, s)).
Proof.
  intros Hwf. pose proof (acceptsTemperature_iff now temp s Hwf) as Hiff.
  unfold exec. rewrite updateTemperature_unfold.
  destruct (acceptsTemperature now temp s).
  - split; [intros _; repeat split | intros Hn; exfalso; apply Hn, Hiff; reflexivity].
  - split; [intros Ha; apply Hiff in Ha; discriminate | reflexivity].
Qed.

(** The doubles 0.3 and 0.8 are 0.5 apart once the difference is
    rounded, which a tolerance of 0.5 lets through; 0.3 and 0.9 are
    0.6000000000000001 apart. *)
Example jump_in_doubles :
  (round64 0.8 - round64 0.3)%num = Fin (1 # 2) /\
  (round64 0.9 - round64 0.3)%num = Fin (1351079888211149 # 2251799813685248) /\
  tolerance wideBand = Fin (1 # 2).
Proof. evaluate. Qed.

Lemma updateTemperature_records_iff_witness :
  tracker_wf (initial wideBand ∅) /\
  tracker_wf wideBandAt03 /\
  lastTemp wideBandAt03 = Some (round64 0.3) /\
  lastTempTime wideBandAt03 = Some t2023 /\
  (* no prior value: recorded *)
  lastTemp (exec (updateTemperature t2023 (Some (round64 0.3))) (initial wideBand ∅))
  = Some (round64 0.3) /\
  (* a jump that rounds to the tolerance, one second later: recorded *)
  (lastTemp (exec (updateTemperature (t2023 + 1000) (Some (round64 0.8))) wideBandAt03)
   = Some (round64 0.8) /\
   lastTempTime (exec (updateTemperature (t2023 + 1000) (Some (round64 0.8))) wideBandAt03)
   = Some (t2023 + 1000)) /\
  (* a larger jump: refused until more than the swap delay has passed *)
  updateTemperature (t2023 + 1000) (Some (round64 0.9)) wideBandAt03
  = (Ok tt, wideBandAt03) /\
  updateTemperature (t2023 + minutes 60) (Some (round64 0.9)) wideBandAt03
  = (Ok tt, wideBandAt03) /\
  (lastTemp (exec (updateTemperature (t2023 + minutes 60 + 1) (Some (round64 0.9)))
               wideBandAt03)
   = Some (round64 0.9) /\
   lastTempTime (exec (updateTemperature (t2023 + minutes 60 + 1) (Some (round64 0.9)))
                   wideBandAt03)
   = Some (t2023 + minutes 60 + 1)) /\
  (* out of the range, NaN and null: refused *)
  updateTemperature (t2023 + 1000) (Some (Fin 30)) wideBandAt03 = (Ok tt, wideBandAt03) /\
  updateTemperature (t2023 + 1000) (Some NaN) wideBandAt03 = (Ok tt, wideBandAt03) /\
  updateTemperature (t2023 + 1000) None wideBandAt03 = (Ok tt, wideBandAt03).
Proof.
  assert (Hwf0 : tracker_wf (initial wideBand ∅)).
  { intros H. exfalso. apply H. vm_compute. reflexivity. }
  assert (Hwf : tracker_wf wideBandAt03).
  { intros _ H. vm_compute in H. discriminate. }
  assert (Hl : lastTemp wideBandAt03 = Some (round64 0.3)) by (vm_compute; reflexivity).
  assert (Ht : lastTempTime wideBandAt03 = Some t2023) by (vm_compute; reflexivity).
  assert (Hfirst : readingAcceptable t2023 (Some (round64 0.3)) (initial wideBand ∅)).
  { exists (round64 0.3).
    refine (conj eq_refl (conj _ (conj _ (conj _ _))));
      [vm_compute; reflexivity | vm_compute; reflexivity | vm_compute; reflexivity |].
    left. vm_compute. reflexivity. }
  assert (Hsmall : readingAcceptable (t2023 + 1000) (Some (round64 0.8)) wideBandAt03).
  { exists (round64 0.8).
    refine (conj eq_refl (conj _ (conj _ (conj _ _))));
      [vm_compute; reflexivity | vm_compute; reflexivity | vm_compute; reflexivity |].
    right. left. exists (round64 0.3). split; [exact Hl | vm_compute; reflexivity]. }
  assert (Hlate : readingAcceptable (t2023 + minutes 60 + 1) (Some (round64 0.9))
                    wideBandAt03).
  { exists (round64 0.9).
    refine (conj eq_refl (conj _ (conj _ (conj _ _))));
      [vm_compute; reflexivity | vm_compute; reflexivity | vm_compute; reflexivity |].
    right. right. exists t2023. split; [exact Ht | vm_compute; reflexivity]. }
  assert (Hbig : forall now, (now = t2023 + 1000 \/ now = t2023 + minutes 60) ->
            ~ readingAcceptable now (Some (round64 0.9)) wideBandAt03).
  { intros now Hnow (t & E & _ & _ & _ & Hlast). injection E as <-.
    destruct Hlast as [H | [(l & El & Hj) | (t0 & Et & Hw)]].
    - rewrite Hl in H. discriminate.
    - rewrite Hl in El. injection El as <-. vm_compute in Hj. discriminate.
    - rewrite Ht in Et. injection Et as <-.
      destruct Hnow as [-> | ->]; vm_compute in Hw; discriminate. }
  assert (Hout : ~ readingAcceptable (t2023 + 1000) (Some (Fin 30)) wideBandAt03).
  { intros (t & E & _ & _ & Hmax & _). injection E as <-.
    vm_compute in Hmax. discriminate. }
  assert (Hnan : ~ readingAcceptable (t2023 + 1000) (Some NaN) wideBandAt03).
  { intros (t & E & Hn & _). injection E as <-. vm_compute in Hn. discriminate. }
  assert (Hnull : ~ readingAcceptable (t2023 + 1000) None wideBandAt03).
  { intros (t & E & _). discriminate. }
  refine (conj Hwf0 (conj Hwf (conj Hl (conj Ht (conj _ (conj _ (conj _ (conj _
           (conj _ (conj _ (conj _ _))))))))))).
  - exact (proj1 (proj2 (proj1 (updateTemperature_records_iff _ _ _ Hwf0) Hfirst))).
  - exact (proj2 (proj1 (updateTemperature_records_iff _ _ _ Hwf) Hsmall)).
  - exact (proj2 (updateTemperature_records_iff _ _ _ Hwf) (Hbig _ (or_introl eq_refl))).
  - exact (proj2 (updateTemperature_records_iff _ _ _ Hwf) (Hbig _ (or_intror eq_refl))).
  - exact (proj2 (proj1 (updateTemperature_records_iff _ _ _ Hwf) Hlate)).
  - exact (proj2 (updateTemperature_records_iff _ _ _ Hwf) Hout).
  - exact (proj2 (updateTemperature_records_iff _ _ _ Hwf) Hnan).
  - exact (proj2 (updateTemperature_records_iff _ _ _ Hwf) Hnull).
Defined.

(** A later reading: a jump of 3 degrees is refused one minute after the
    last accepted reading and taken after more than the swap delay. *)
Example updateTemperature_jump :
  let s := exec (updateTemperature t2023 (Some (Fin 16))) (initial heatOnly ∅) in
  exec (updateTemperature (t2023 + minutes 1) (Some (Fin 19))) s = s /\
  lastTemp (exec (updateTemperature (t2023 + minutes 1) (Some (round64 16.2))) s)
  = Some (round64 16.2) /\
  lastTemp (exec (updateTemperature (t2023 + minutes 60) (Some (Fin 19))) s)
  = Some (Fin 16) /\
  lastTemp (exec (updateTemperature (t2023 + minutes 60 + 1) (Some (Fin 19))) s)
  = Some (Fin 19).
Proof. cbv zeta. evaluate. Qed.

(** ** Footprints of the handlers *)

Lemma exec_bind {A B : Type} (c : M A) (k : A -> M B) (s : Node) :
  exec (c ≫= k) s
  = match c s with
    | (Ok a, s') => exec (k a) s'
    | (Throw _, s') => s'
    end.
Proof.
  unfold exec, mbind, M_bind. destruct (c s) as [[a|e] s']; reflexivity.
Qed.

Lemma store_set_default (c : Config) (now : Z) (v : value) (st : SetpointStore) :
  sp_defaultSetpoint (store_set c now v st) = sp_defaultSetpoint st.
Proof.
  unfold store_set.
  repeat match goal with |- context [if ?b then _ else _] => destruct b end;
    reflexivity.
Qed.

Section Footprint.

Variable R : Node -> Node -> Prop.

Hypothesis R_refl : forall s, R s s.
Hypothesis R_trans : forall a b c, R a b -> R b c -> R a c.
Hypothesis R_emit : forall o s, R s (emit o s).
Hypothesis R_lastChange : forall v s, R s (set_lastChange v s).
Hypothesis R_lastAction : forall v s, R s (set_lastAction v s).
Hypothesis R_lastHeatTime : forall v s, R s (set_lastHeatTime v s).
Hypothesis R_lastCoolTime : forall v s, R s (set_lastCoolTime v s).
Hypothesis R_override : forall v s, R s (set_override v s).
Hypothesis R_store : forall s st st',
  setpoint s = Some st -> sp_defaultSetpoint st' = sp_defaultSetpoint st ->
  R s (set_setpoint (Some st') s).
Hypothesis R_lastTemp : forall v now s, R s (set_lastTemp v (Some now) s).
Hypothesis R_lastSend : forall v s, R s (set_lastSend v s).

Lemma relates_ret {A : Type} (a : A) : relates R (mret a).
Proof using R_refl. intros s. apply R_refl. Qed.

Lemma relates_gets {A : Type} (f : Node -> A) : relates R (gets f).
Proof using R_refl. intros s. apply R_refl. Qed.

Lemma relates_throw {A : Type} (e : error) : relates R (throw (A := A) e).
Proof using R_refl. intros s. apply R_refl. Qed.

Lemma relates_modify (f : Node -> Node) :
  (forall s, R s (f s)) -> relates R (modify f).
Proof using Type. intros H s. apply H. Qed.

Lemma relates_bind {A B : Type} (c : M A) (k : A -> M B) :
  relates R c -> (forall a, relates R (k a)) -> relates R (c ≫= k).
Proof using R_trans.
  intros Hc Hk s. rewrite exec_bind. specialize (Hc s). unfold exec in Hc.
  destruct (c s) as [[a|e] s']; simpl in Hc; [|exact Hc].
  apply R_trans with s'; [exact Hc | apply Hk].
Qed.

Ltac relate :=
  repeat first
    [ match goal with H : _ |- relates _ _ => solve [apply H] end
    | apply relates_ret | apply relates_gets | apply relates_throw
    | apply relates_modify; solve [auto]
    | apply relates_bind; [|intros ?]
    | progress unfold when, whenOwn, undefinedRead
    | match goal with
      | |- relates _ (if ?b then _ else _) => destruct b
      | |- relates _ (match ?x with _ => _ end) => destruct x
      end ].

Lemma updateStatus_relates (now : Z) : relates R (updateStatus now).
Proof using R_emit. intros s. apply R_emit. Qed.

Lemma updateNode_relates (now : Z) : relates R (updateNode now).
Proof using R_refl R_trans R_emit.
  pose proof (updateStatus_relates now). unfold updateNode. relate.
Qed.

Lemma setpoint_set_relates (now : Z) (v : value) : relates R (setpoint_set now v).
Proof using R_refl R_store.
  intros s. unfold setpoint_set, exec, mbind, M_bind, gets. simpl.
  destruct (setpoint s) as [st|] eqn:E; simpl; [|apply R_refl].
  apply (R_store s st _ E), store_set_default.
Qed.

Lemma setpoint_get_relates (now : Z) : relates R (setpoint_get now).
Proof using R_refl R_trans. unfold setpoint_get. relate. Qed.

Lemma updateAction_relates (now : Z) : relates R (updateAction now).
Proof using R_refl R_trans R_lastAction.
  pose proof (setpoint_get_relates now). unfold updateAction. relate.
Qed.

Lemma override_set_relates (v : value) : relates R (override_set v).
Proof using R_override. unfold override_set. relate. Qed.

Lemma handleModeChange_relates (now : Z) (m : mode) :
  relates R (handleModeChange now m).
Proof using R_refl R_trans R_emit R_lastChange R_lastAction R_lastHeatTime
            R_lastCoolTime R_override R_store.
  pose proof (updateNode_relates now). pose proof (updateAction_relates now).
  pose proof (setpoint_set_relates now). pose proof override_set_relates.
  unfold handleModeChange. relate.
Qed.

Lemma action_set_relates (now : Z) (v : value) : relates R (action_set now v).
Proof using R_refl R_trans R_emit R_lastChange R_lastAction R_lastHeatTime
            R_lastCoolTime R_override R_store.
  pose proof (handleModeChange_relates now). unfold action_set. relate.
Qed.

Lemma mode_set_relates (now : Z) (v : value) : relates R (mode_set now v).
Proof using R_refl R_trans R_emit R_lastChange R_lastAction R_lastHeatTime
            R_lastCoolTime R_override R_store.
  pose proof (handleModeChange_relates now). unfold mode_set. relate.
Qed.

Lemma onInput_relates (now : Z) (msg : InputMsg) : relates R (onInput now msg).
Proof using R_refl R_trans R_emit R_lastChange R_lastAction R_lastHeatTime
            R_lastCoolTime R_override R_store.
  pose proof (mode_set_relates now). pose proof (action_set_relates now).
  pose proof (setpoint_set_relates now). pose proof override_set_relates.
  unfold onInput. relate.
Qed.

Lemma onMqttIn_relates (now : Z) (tp payload : string) :
  relates R (onMqttIn now tp payload).
Proof using R_refl R_trans R_emit R_lastChange R_lastAction R_lastHeatTime
            R_lastCoolTime R_override R_store.
  pose proof (mode_set_relates now). pose proof (setpoint_set_relates now).
  unfold onMqttIn. relate.
Qed.

Lemma updateTemperature_relates (now : Z) (temp : option number) :
  relates R (updateTemperature now temp).
Proof using R_refl R_trans R_lastTemp. unfold updateTemperature. relate. Qed.

Lemma sendStatusUpdate_relates (now : Z) : relates R (sendStatusUpdate now).
Proof using R_refl R_trans R_emit R_lastSend. unfold sendStatusUpdate. relate. Qed.

(** Lines 431-446: what a tick does after the temperature refresh. *)
Lemma tick_tail_relates (now : Z) :
  relates R
    (s1 ← gets id;
     (if isHeating s1 then modify (set_lastHeatTime (Some now))
      else if isCooling s1 then modify (set_lastCoolTime (Some now))
      else mret tt);;
     s2 ← gets id;
     (if isHeating s2 && ranTooLong now (lastHeatTime s2) (cfg s2)
      then modify (set_lastAction (Some NoAction))
      else if isCooling s2 && ranTooLong now (lastCoolTime s2) (cfg s2)
      then modify (set_lastAction (Some NoAction))
      else mret tt);;
     updateNode now;;
     sendStatusUpdate now;;
     updateStatus now).
Proof using R_refl R_trans R_emit R_lastAction R_lastHeatTime R_lastCoolTime
            R_lastSend.
  pose proof (updateStatus_relates now). pose proof (updateNode_relates now).
  pose proof (sendStatusUpdate_relates now).
  relate.
Qed.

Lemma tick_relates (now : Z) : relates R (tick now).
Proof using R_refl R_trans R_emit R_lastAction R_lastHeatTime R_lastCoolTime
            R_lastTemp R_lastSend.
  pose proof (updateStatus_relates now). pose proof (updateNode_relates now).
  pose proof (updateAction_relates now). pose proof (updateTemperature_relates now).
  pose proof (sendStatusUpdate_relates now).
  unfold tick. relate.
Qed.

End Footprint.

Lemma store_rel_refl (a : option SetpointStore) : store_rel a a.
Proof. destruct a; simpl; auto. Qed.

Lemma store_rel_trans (a b c : option SetpointStore) :
  store_rel a b -> store_rel b c -> store_rel a c.
Proof. destruct a, b, c; simpl; try tauto; congruence. Qed.

Lemma quiet_refl (s : Node) : quiet s s.
Proof. unfold quiet. repeat split. apply store_rel_refl. Qed.

Lemma quiet_trans (a b c : Node) : quiet a b -> quiet b c -> quiet a c.
Proof.
  unfold quiet. intros (?&?&?&?&?&?&?) (?&?&?&?&?&?&?).
  repeat split; try congruence. eapply store_rel_trans; eassumption.
Qed.

Lemma frame_refl (s : Node) : frame s s.
Proof. unfold frame. repeat split; auto. apply store_rel_refl. Qed.

Lemma frame_trans (a b c : Node) : frame a b -> frame b c -> frame a c.
Proof.
  unfold frame. intros (?&?&?&?&?) (?&?&?&?&?).
  repeat split; try congruence; auto. eapply store_rel_trans; eassumption.
Qed.

Lemma quiet_frame (s s' : Node) : quiet s s' -> frame s s'.
Proof.
  unfold quiet, frame, tracker_wf. intros (?&?&?&Ht&Htt&?&?).
  repeat split; auto. rewrite Ht, Htt. auto.
Qed.

Ltac footprint :=
  intros; unfold quiet, frame, tracker_wf; simpl;
  repeat split; auto using store_rel_refl; try congruence.

(** The command handlers and the status refresh stay within [quiet]. *)
Lemma handle_quiet (now : Z) (e : event) :
  e <> Tick -> relates quiet (handle now e).
Proof.
  intros He. destruct e as [msg|tp payload| |]; simpl.
  - apply (onInput_relates quiet quiet_refl quiet_trans); try solve [footprint].
    intros s st st' E Hd. footprint. rewrite E. simpl. congruence.
  - apply (onMqttIn_relates quiet quiet_refl quiet_trans); try solve [footprint].
    intros s st st' E Hd. footprint. rewrite E. simpl. congruence.
  - apply updateStatus_relates. footprint.
  - congruence.
Qed.

(** Every handler stays within [frame]. *)
Lemma handle_frame (now : Z) (e : event) : relates frame (handle now e).
Proof.
  destruct e as [msg|tp payload| |].
  1-3: intros s; apply quiet_frame, handle_quiet; discriminate.
  simpl. apply (tick_relates frame frame_refl frame_trans); solve [footprint].
Qed.

(** A tick on a node that is starting or not connected only refreshes the
    status (lines 423-426). *)
Lemma tick_disconnected (now : Z) (s : Node) :
  starting s || negb (isConnected now s) = true ->
  tick now s = updateStatus now s.
Proof.
  intros H. unfold tick, mbind, M_bind, gets. simpl. rewrite H. reflexivity.
Qed.

Lemma initial_fields (c : Config) (ctx : gmap string value) :
  let s := initial c ctx in
  cfg s = c /\ context s = ctx /\ starting s = false /\
  lastTemp s = None /\ lastTempTime s = None /\ lastSend s = None /\
  setpoint s
  = if hasSetpoint c then Some (mkSetpointStore None None (capturedDefault c ctx))
    else None.
Proof.
  unfold initial, init, initSetpoint, exec, mbind, M_bind, gets, modify,
    capturedDefault.
  simpl. destruct (hasSetpoint c); simpl; repeat split.
Qed.

(** What every reachable node keeps from [init]. *)
Lemma reachable_frame (c : Config) (ctx : gmap string value) (ok : Z -> Prop) (s : Node) :
  reachable c ctx ok s ->
  cfg s = c /\ context s = ctx /\ starting s = false /\ tracker_wf s /\
  store_rel (setpoint (initial c ctx)) (setpoint s).
Proof.
  induction 1 as [|s now e Hr IH Hok].
  - destruct (initial_fields c ctx) as (?&?&?&Ht&?&?&?).
    repeat split; auto using store_rel_refl.
    unfold tracker_wf. rewrite Ht. congruence.
  - destruct IH as (?&?&?&?&?).
    destruct (handle_frame now e s) as (?&?&?&?&?).
    unfold step. simpl.
    repeat split; try congruence; auto. eapply store_rel_trans; eassumption.
Qed.

(** A recorded temperature always carries its instant. *)
Corollary reachable_tracker_wf (c : Config) (ctx : gmap string value) (s : Node) :
  reachable c ctx (fun _ => True) s -> tracker_wf s.
Proof. intros H. apply (reachable_frame c ctx _ s H). Qed.

(** ** Liveness from the initial state *)

Lemma disconnected_without_send (c : Config) (now : Z) (s : Node) :
  cfg s = c -> lastSend s = None -> pastKeepAlive c now ->
  isConnected now s = false.
Proof.
  unfold isConnected, pastKeepAlive. intros -> -> H. simpl.
  rewrite Z.sub_0_r. exact H.
Qed.

Lemma reachable_no_send (c : Config) (ctx : gmap string value) (s : Node) :
  reachable c ctx (pastKeepAlive c) s -> lastSend s = None.
Proof.
  induction 1 as [|s now e Hr IH Hok].
  - apply (initial_fields c ctx).
  - destruct (reachable_frame _ _ _ _ Hr) as (Hc & _).
    assert (Hq : quiet s (step s (now, e))).
    { destruct e as [msg|tp payload| |];
        try (apply handle_quiet; discriminate).
      unfold step, exec. simpl. rewrite tick_disconnected.
      - apply (handle_quiet now MqttStatus). discriminate.
      - rewrite (disconnected_without_send c now s Hc IH Hok). apply orb_true_r. }
    destruct Hq as (_&_&_&_&_&Hs&_). congruence.
Qed.

(** C9, as the code has it.  From the initial state, and as long as every
    clock reading is at least [keepAliveMs] past the epoch, nothing is ever
    sent: [lastSend] stays [null], [isConnected] stays false, and every
    tick takes the early return of line 425, so the recomputation branch
    is never reached. *)
Theorem never_connected_past_keepAlive
  (c : Config) (ctx : gmap string value) (s : Node) :
  reachable c ctx (pastKeepAlive c) s ->
  lastSend s = None /\
  forall now, pastKeepAlive c now ->
    isConnected now s = false /\ tick now s = updateStatus now s.
Proof.
  intros Hr. pose proof (reachable_no_send c ctx s Hr) as Hs.
  destruct (reachable_frame _ _ _ _ Hr) as (Hc & _).
  split; [exact Hs|]. intros now Hok.
  pose proof (disconnected_without_send c now s Hc Hs Hok) as Hd.
  split; [exact Hd|]. apply tick_disconnected. rewrite Hd. apply orb_true_r.
Qed.

Lemma never_connected_past_keepAlive_witness :
  let s := run (initial heatOnly ∅)
             [(t2023, Input (msgPayload (VStr "heat"))); (t2023 + 5000, Tick)] in
  lastSend s = None /\ isConnected (t2023 + 10000) s = false.
Proof.
  assert (Hr : reachable heatOnly ∅ (pastKeepAlive heatOnly)
                 (run (initial heatOnly ∅)
                    [(t2023, Input (msgPayload (VStr "heat"))); (t2023 + 5000, Tick)])).
  { simpl. apply reach_step; [apply reach_step; [apply reach_init|]|]; reflexivity. }
  destruct (never_connected_past_keepAlive heatOnly ∅ _ Hr) as [Hs Hn].
  split; [exact Hs|]. apply (Hn (t2023 + 10000)). reflexivity.
Defined.

(** C9 as stated fails when [keepAliveMs] exceeds the clock reading: with a
    keep-alive of 10^8 minutes the node is connected from the start, and
    the first tick runs the recomputation branch and stamps [lastSend]. *)
Lemma connected_from_start_counterexample :
  lastSend (initial heatOnlyLongKeepAlive ∅) = None /\
  isConnected t2023 (initial heatOnlyLongKeepAlive ∅) = true /\
  lastSend (step (initial heatOnlyLongKeepAlive ∅) (t2023, Tick)) = Some t2023 /\
  tick t2023 (initial heatOnlyLongKeepAlive ∅)
  <> updateStatus t2023 (initial heatOnlyLongKeepAlive ∅).
Proof.
  repeat split. vm_compute. discriminate.
Qed.

(** ** The setpoint store *)

Lemma store_get_expired (c : Config) (now : Z) (st : SetpointStore) :
  expired c now st -> store_get c now st = sp_defaultSetpoint st.
Proof.
  unfold expired, store_get. destruct (sp_lastChange st) as [t|].
  - intros H. rewrite (ltb_leb_false _ _ H), andb_false_r. reflexivity.
  - intros _. rewrite andb_false_r. reflexivity.
Qed.

(** C6, as the code has it.  Once more than [tempValidMs] have passed
    since the store last accepted a value, or if it never accepted one,
    [setpoint.get()] returns the default captured by [initSetpoint]: the
    heat setpoint when the configured default mode is [heat], the cool
    setpoint otherwise, whatever the current mode. *)
Theorem expired_setpoint_reads_captured_default
  (c : Config) (ctx : gmap string value) (s : Node) (now : Z) :
  reachable c ctx (fun _ => True) s ->
  hasSetpoint c = true ->
  (forall st, setpoint s = Some st -> expired c now st) ->
  setpoint_get now s
  = (Ok (if mode_eqb (defaultMode c) Heat then getHeatSetpoint s else getCoolSetpoint s),
     s).
Proof.
  intros Hr Hhas Hexp.
  destruct (reachable_frame _ _ _ _ Hr) as (Hc & Hctx & _ & _ & Hrel).
  destruct (initial_fields c ctx) as (_&_&_&_&_&_&Hinit).
  rewrite Hinit, Hhas in Hrel.
  unfold setpoint_get, mbind, M_bind, gets. simpl.
  destruct (setpoint s) as [st|] eqn:E; simpl in Hrel; [|contradiction].
  unfold mret, M_ret. rewrite Hc, (store_get_expired c now st (Hexp st eq_refl)).
  rewrite <- Hrel. unfold capturedDefault, getHeatSetpoint, getCoolSetpoint,
    getStoredValue. simpl. rewrite Hc, Hctx. reflexivity.
Qed.

Lemma expired_setpoint_reads_captured_default_witness :
  setpoint_get (t2023 + minutes 60) heatOnlyAt21 = (Ok (VNum (Fin 21)), heatOnlyAt21) /\
  setpoint_get (t2023 + minutes 60 + 1) heatOnlyAt21 = (Ok (VNum (Fin 18)), heatOnlyAt21).
Proof.
  split; [vm_compute; reflexivity|].
  assert (Hr : reachable heatOnly ∅ (fun _ => True) heatOnlyAt21).
  { apply reach_step; [apply reach_init | exact I]. }
  assert (Hexp : forall st, setpoint heatOnlyAt21 = Some st ->
                            expired heatOnly (t2023 + minutes 60 + 1) st).
  { intros st E. vm_compute in E. injection E as <-. reflexivity. }
  rewrite (expired_setpoint_reads_captured_default heatOnly ∅ heatOnlyAt21 _
             Hr eq_refl Hexp).
  vm_compute. reflexivity.
Defined.

(** C6 as stated fails on a heat-and-cool controller: switched to mode
    [heat], its store reads the cool setpoint (24) once the value loaded by
    the mode change has expired, not the heat setpoint (18). *)
Lemma expired_default_ignores_mode_counterexample :
  mode_get heatCoolInHeat = Heat /\
  (forall st, setpoint heatCoolInHeat = Some st ->
              expired heatCool (t2023 + minutes 61) st) /\
  getHeatSetpoint heatCoolInHeat = VNum (Fin 18) /\
  setpoint_get (t2023 + minutes 61) heatCoolInHeat = (Ok (VNum (Fin 24)), heatCoolInHeat).
Proof.
  split; [vm_compute; reflexivity|]. split.
  { intros st E. vm_compute in E. injection E as <-. reflexivity. }
  split; vm_compute; reflexivity.
Qed.

(** ** Requests outside the capabilities *)

(** After any mode change the node is in the mode asked for. *)
Lemma handleModeChange_lastChange (now : Z) (m : mode) (s : Node) :
  lastChange (exec (handleModeChange now m) s) = Some m.
Proof.
  unfold handleModeChange, exec, updateNode, updateStatus, updateAction,
    setpoint_set, setpoint_get, override_set, undefinedRead, throw,
    mbind, M_bind, mret, M_ret, gets, modify.
  destruct m; cbn; repeat (case_match; simplify_eq; cbn); reflexivity.
Qed.

(** An action request naming a capability the controller lacks is
    dropped (lines 341-349): nothing changes and nothing is emitted. *)
Lemma action_request_without_capability (now : Z) (s : Node) :
  (hasHeating (cfg s) = false -> action_set now (VStr "heating") s = (Ok tt, s)) /\
  (hasCooling (cfg s) = false -> action_set now (VStr "cooling") s = (Ok tt, s)).
Proof.
  split; intros H; unfold action_set, mbind, M_bind, gets; simpl; rewrite H; reflexivity.
Qed.

(** [mode.set] has no such branch (lines 365-373): a request for a mode
    the controller lacks fails the test of its own branch and reaches the
    final [else]. *)
Lemma mode_request_without_capability (now : Z) (s : Node) :
  (hasHeating (cfg s) = false ->
   mode_set now (VStr "heat") s = handleModeChange now Auto s) /\
  (hasCooling (cfg s) = false ->
   mode_set now (VStr "cool") s = handleModeChange now Auto s).
Proof.
  split; intros H; unfold mode_set, mbind, M_bind, gets; simpl; rewrite H; reflexivity.
Qed.

(** C5, at the failing input: the message [{payload: 'heat'}] sent to a
    cool-only controller that has just started.  The request names a
    capability the controller lacks, so by C5 (and by the editor's help
    text, and as [action.set] does for [heating]) it is to be dropped.
    [mode.set] does not drop it: the mode becomes [auto], the action is
    recomputed and a status and an update message are emitted.  A request
    for [cool] on a heat-only controller goes the same way. *)
Theorem mode_request_not_dropped :
  hasHeating (cfg (initial coolOnly ∅)) = false /\
  action_set t2023 (VStr "heating") (initial coolOnly ∅) = (Ok tt, initial coolOnly ∅) /\
  mode_set t2023 (VStr "heat") (initial coolOnly ∅)
  = handleModeChange t2023 Auto (initial coolOnly ∅) /\
  lastChange (initial coolOnly ∅) = None /\
  lastChange (exec (mode_set t2023 (VStr "heat")) (initial coolOnly ∅)) = Some Auto /\
  lastAction (initial coolOnly ∅) = None /\
  lastAction (exec (mode_set t2023 (VStr "heat")) (initial coolOnly ∅)) = Some NoAction /\
  outbox (initial coolOnly ∅) = [] /\
  length (outbox (exec (mode_set t2023 (VStr "heat")) (initial coolOnly ∅))) = 2%nat /\
  exec (mode_set t2023 (VStr "heat")) (initial coolOnly ∅) <> initial coolOnly ∅ /\
  step (initial coolOnly ∅) (t2023, Input (msgPayload (VStr "heat")))
  = exec (mode_set t2023 (VStr "heat")) (initial coolOnly ∅) /\
  hasCooling (cfg (initial heatOnly ∅)) = false /\
  lastChange (step (initial heatOnly ∅) (t2023, Input (msgPayload (VStr "cool"))))
  = Some Auto /\
  length (outbox (step (initial heatOnly ∅) (t2023, Input (msgPayload (VStr "cool")))))
  = 2%nat.
Proof.
  repeat (match goal with |- _ /\ _ => split end;
          [first [vm_compute; reflexivity | idtac]|]);
    try (vm_compute; reflexivity).
  intros E. apply (f_equal lastChange) in E. vm_compute in E. discriminate.
Qed.

(** ** Mode [off] *)

Lemma store_set_null (c : Config) (now : Z) (st : SetpointStore) :
  store_set c now VNull st = st.
Proof. unfold store_set. rewrite andb_false_r. reflexivity. Qed.

(** With a store, mode [off] stops the action and clears the override,
    but [setpoint.set(null)] is refused by the store's own [!== null]
    test: the store is left as it was. *)
Lemma handleModeChange_off_with_store (now : Z) (s : Node) (st : SetpointStore) :
  setpoint s = Some st ->
  let s' := exec (handleModeChange now Off) s in
  fst (handleModeChange now Off s) = Ok tt /\
  lastAction s' = Some NoAction /\ override s' = Some false /\
  setpoint s' = Some st.
Proof.
  intros E.
  unfold handleModeChange, exec, updateNode, updateStatus, setpoint_set,
    override_set, mbind, M_bind, mret, M_ret, gets, modify.
  cbn. rewrite E. cbn. rewrite store_set_null. repeat split.
Qed.

(** Without a store (a manual controller) mode [off] throws at
    [node.setpoint.set(null)], before the override is cleared. *)
Lemma handleModeChange_off_without_store (now : Z) (s : Node) :
  setpoint s = None ->
  let s' := exec (handleModeChange now Off) s in
  fst (handleModeChange now Off s)
  = Throw (TypeError "Cannot read properties of undefined (reading 'set')") /\
  lastAction s' = Some NoAction /\ override s' = override s /\ outbox s' = outbox s.
Proof.
  intros E.
  unfold handleModeChange, exec, updateNode, updateStatus, setpoint_set,
    override_set, undefinedRead, throw, mbind, M_bind, mret, M_ret, gets, modify.
  cbn. rewrite E. cbn. repeat split.
Qed.

(** C3 on the code.  A heat-only controller holding the setpoint 21 is
    switched off one second later: the action is [none] and the override
    false, but the store still holds 21 with its instant, and
    [setpoint.get()] returns 21, not the default 18. *)
Theorem mode_off_keeps_setpoint :
  lastChange heatOnlyAt21Off = Some Off /\
  lastAction heatOnlyAt21Off = Some NoAction /\
  override heatOnlyAt21Off = Some false /\
  setpoint heatOnlyAt21Off
  = Some (mkSetpointStore (Some (Fin 21)) (Some t2023) (VNum (Fin 18))) /\
  setpoint_get (t2023 + 2000) heatOnlyAt21Off = (Ok (VNum (Fin 21)), heatOnlyAt21Off).
Proof. evaluate. Qed.

(** On a manual controller the same request throws and leaves a set
    override in place. *)
Example mode_off_manual_throws :
  let s := exec (override_set (VBool true)) (initial manual ∅) in
  fst (onInput t2023 (msgPayload (VStr "off")) s)
  = Throw (TypeError "Cannot read properties of undefined (reading 'set')") /\
  override (exec (onInput t2023 (msgPayload (VStr "off"))) s) = Some true.
Proof. split; vm_compute; reflexivity. Qed.

(** ** Refused setpoint requests *)

(** The store refuses a value that does not parse, or lies outside the
    range, and any value when [hasSetpoint] is off. *)
Lemma store_set_rejects (c : Config) (now : Z) (v : value) (st : SetpointStore) :
  hasSetpoint c = false \/ Num.isNaN (parseFloat v) = true \/
  (parseFloat v >=? minTemp c)%num = false \/
  (parseFloat v <=? maxTemp c)%num = false ->
  store_set c now v st = st.
Proof.
  unfold store_set. intros [H | [H | [H | H]]]; rewrite H; simpl;
    rewrite ?andb_false_r; try reflexivity;
    destruct (hasSetpoint c && _); reflexivity.
Qed.

Lemma set_setpoint_same (s : Node) (st : SetpointStore) :
  setpoint s = Some st -> set_setpoint (Some st) s = s.
Proof. destruct s. simpl. intros ->. reflexivity. Qed.

(** On a node that has a store, such a request changes nothing, so
    [setpoint.get()] returns what it returned before. *)
Lemma setpoint_set_rejected (now : Z) (v : value) (s : Node) (st : SetpointStore) :
  setpoint s = Some st ->
  hasSetpoint (cfg s) = false \/ Num.isNaN (parseFloat v) = true \/
  (parseFloat v >=? minTemp (cfg s))%num = false \/
  (parseFloat v <=? maxTemp (cfg s))%num = false ->
  setpoint_set now v s = (Ok tt, s).
Proof.
  intros E H. unfold setpoint_set, mbind, M_bind, gets, modify. simpl.
  rewrite E. simpl. rewrite (store_set_rejects _ now v st H).
  rewrite (set_setpoint_same s st E). reflexivity.
Qed.

Example setpoint_out_of_range :
  setpoint_set (t2023 + 1000) (VStr "30") heatOnlyAt21 = (Ok tt, heatOnlyAt21) /\
  setpoint_set (t2023 + 1000) (VStr "warm") heatOnlyAt21 = (Ok tt, heatOnlyAt21).
Proof. split; vm_compute; reflexivity. Qed.

(** C7 on the code.  A manual controller has [hasSetpoint] off, so
    [initSetpoint] returns before it builds [node.setpoint]; a setpoint
    request then throws a TypeError instead of being dropped. *)
Theorem setpoint_request_without_store_throws :
  hasSetpoint manual = false /\
  setpoint (initial manual ∅) = None /\
  onInput t2023 (msgSetpoint (VNum (Fin 21))) (initial manual ∅)
  = (Throw (TypeError "Cannot read properties of undefined (reading 'set')"),
     initial manual ∅).
Proof. evaluate. Qed.

(** ** The run-length cutoff *)

Lemma sameAction_trans (a b c : Node) : sameAction a b -> sameAction b c -> sameAction a c.
Proof. unfold sameAction. congruence. Qed.

(** Publishing (lines 444-446) leaves the action as it is. *)
Lemma publish_keeps_action (now : Z) :
  relates sameAction (updateNode now;; sendStatusUpdate now;; updateStatus now).
Proof.
  assert (Hrefl : forall s, sameAction s s) by reflexivity.
  assert (Hemit : forall o s, sameAction s (emit o s)) by reflexivity.
  assert (Hsend : forall v s, sameAction s (set_lastSend v s)) by reflexivity.
  apply (relates_bind sameAction sameAction_trans).
  { exact (updateNode_relates sameAction Hrefl sameAction_trans Hemit now). }
  intros _. apply (relates_bind sameAction sameAction_trans).
  { exact (sendStatusUpdate_relates sameAction Hrefl sameAction_trans Hemit Hsend now). }
  intros _. exact (updateStatus_relates sameAction Hemit now).
Qed.

(** A run stamped at [now] has run for 0 ms: not too long for any
    positive boost duration. *)
Lemma just_stamped_not_too_long (now : Z) (c : Config) :
  (Fin 0 <? boostMs c)%num = true -> ranTooLong now (Some now) c = false.
Proof.
  intros H. unfold ranTooLong, Num.geb. rewrite Z.sub_diag.
  apply ltb_leb_false. exact H.
Qed.

Lemma exec_gets_bind {A B : Type} (f : Node -> A) (k : A -> M B) (s : Node) :
  exec (gets f ≫= k) s = exec (k (f s)) s.
Proof. reflexivity. Qed.

Lemma exec_modify_bind {B : Type} (f : Node -> Node) (k : unit -> M B) (s : Node) :
  exec (modify f ≫= k) s = exec (k tt) (f s).
Proof. reflexivity. Qed.

Lemma exec_ret_bind {A B : Type} (a : A) (k : A -> M B) (s : Node) :
  exec (mret a ≫= k) s = exec (k a) s.
Proof. reflexivity. Qed.

(** The stamping and the cutoff test of one tick (lines 431-442). *)
Lemma stamp_then_cutoff_keeps_action (now : Z) (s : Node) (k : M unit) :
  (Fin 0 <? boostMs (cfg s))%num = true ->
  relates sameAction k ->
  lastAction
    (exec
       ((if isHeating s then modify (set_lastHeatTime (Some now))
         else if isCooling s then modify (set_lastCoolTime (Some now))
         else mret tt);;
        s2 ← gets id;
        (if isHeating s2 && ranTooLong now (lastHeatTime s2) (cfg s2)
         then modify (set_lastAction (Some NoAction))
         else if isCooling s2 && ranTooLong now (lastCoolTime s2) (cfg s2)
         then modify (set_lastAction (Some NoAction))
         else mret tt);;
        k) s)
  = lastAction s.
Proof.
  intros Hb Hk.
  pose proof (just_stamped_not_too_long now (cfg s) Hb) as Hnot.
  unfold isHeating, isCooling.
  destruct (lastAction s) as [[| |]|] eqn:EA.
  - rewrite exec_modify_bind, exec_gets_bind. unfold id. cbn [lastAction set_lastHeatTime lastHeatTime cfg].
    rewrite EA, Hnot. cbn [andb]. rewrite exec_ret_bind, Hk. exact EA.
  - rewrite exec_modify_bind, exec_gets_bind. unfold id. cbn [lastAction set_lastCoolTime lastCoolTime cfg].
    rewrite EA, Hnot. cbn [andb]. rewrite exec_ret_bind, Hk. exact EA.
  - rewrite exec_ret_bind, exec_gets_bind. unfold id.
    rewrite EA. cbn [andb]. rewrite exec_ret_bind, Hk. exact EA.
  - rewrite exec_ret_bind, exec_gets_bind. unfold id.
    rewrite EA. cbn [andb]. rewrite exec_ret_bind, Hk. exact EA.
Qed.

(** With a positive boost duration the cutoff of lines 438-442 never
    fires: line 432 (434) has just moved the stamp to the current instant,
    so a tick that recomputes leaves the action [updateAction] computed. *)
Lemma tick_keeps_computed_action (now : Z) (s : Node) :
  (Fin 0 <? boostMs (cfg s))%num = true ->
  lastAction (exec (tick now) s) = lastAction (exec (updateAction now) s)
  \/ tick now s = updateStatus now s.
Proof.
  intros Hboost.
  destruct (starting s || negb (isConnected now s)) eqn:Hguard.
  { right. apply tick_disconnected, Hguard. }
  left. unfold tick. rewrite exec_gets_bind. unfold id. rewrite Hguard.
  rewrite exec_bind.
  pose proof (updateAction_relates (fun a b => cfg b = cfg a)
                (fun _ => eq_refl) (fun a b c H1 H2 => eq_trans H2 H1)
                (fun _ _ => eq_refl) now s) as Hcfg.
  simpl in Hcfg. unfold exec in Hcfg.
  change (exec (updateAction now) s) with (snd (updateAction now s)).
  generalize dependent (updateAction now s).
  intros [[[]|e] sA]; simpl; intros Hcfg; [|reflexivity].
  rewrite exec_gets_bind, exec_bind, updateTemperature_unfold.
  set (sB := if acceptsTemperature _ _ sA then _ else sA).
  assert (HB : lastAction sB = lastAction sA /\ cfg sB = cfg sA).
  { unfold sB. destruct (acceptsTemperature _ _ sA); split; reflexivity. }
  destruct HB as [HBa HBc]. rewrite <- HBa.
  rewrite exec_gets_bind.
  apply stamp_then_cutoff_keeps_action.
  - congruence.
  - apply publish_keeps_action.
Qed.

(** C2 on the code.  A heat-only controller (boost duration 30 min) at 16
    degrees against a target of 18 is ticked every 5 seconds for 31
    minutes.  The action is [heating] after every tick, the last one
    included: the cutoff has not forced it to [none]. *)
Theorem boost_cutoff_never_fires :
  boostMs heatOnly = Fin 1800000 /\
  isConnected (t2023 + 5000) heatOnlyCold = true /\
  length longRun = 372%nat /\
  forallb (fun a => match a with Some Heating => true | _ => false end)
          (actionsAlong heatOnlyCold longRun) = true /\
  lastAction (run heatOnlyCold longRun) = Some Heating /\
  lastHeatTime (run heatOnlyCold longRun) = Some (t2023 + minutes 31) /\
  lastChange (run heatOnlyCold longRun) = Some Heat.
Proof. evaluate. Qed.

(** ** What the event handlers can record *)

Lemma refresh_of_null_rejected (now : Z) (s : Node) :
  acceptsTemperature now (Some (parseFloat (toValue None))) s = false.
Proof.
  unfold acceptsTemperature, Num.geb. simpl. destruct (minTemp (cfg s)); reflexivity.
Qed.

(** A tick never records a first temperature: line 429 feeds
    [parseFloat(null)], which is NaN, to [updateTemperature]. *)
Lemma tick_without_temperature (now : Z) (s : Node) :
  lastTemp s = None -> lastTemp (exec (tick now) s) = None.
Proof.
  intros H.
  destruct (starting s || negb (isConnected now s)) eqn:Hguard.
  { unfold exec. rewrite (tick_disconnected now s Hguard). exact H. }
  unfold tick. rewrite exec_gets_bind. unfold id. rewrite Hguard.
  rewrite exec_bind.
  assert (E : updateAction now s = (Ok tt, set_lastAction (Some NoAction) s)).
  { unfold updateAction, mbind, M_bind, gets. simpl. rewrite H. reflexivity. }
  rewrite E, exec_gets_bind. cbn [lastTemp set_lastAction]. rewrite H.
  rewrite exec_bind, updateTemperature_unfold, refresh_of_null_rejected.
  rewrite (tick_tail_relates (fun a b => lastTemp b = lastTemp a)
             (fun _ => eq_refl) (fun a b c H1 H2 => eq_trans H2 H1)
             (fun _ _ => eq_refl) (fun _ _ => eq_refl) (fun _ _ => eq_refl)
             (fun _ _ => eq_refl) (fun _ _ => eq_refl) now).
  exact H.
Qed.

(** Through the event handlers alone no temperature is ever recorded: the
    [temperature] property of an input goes to [setpoint.set] (line 92),
    and only [updateTemperature], a method of the node, records one. *)
Lemma reachable_no_temperature (c : Config) (ctx : gmap string value) (s : Node) :
  reachable c ctx (fun _ => True) s -> lastTemp s = None.
Proof.
  induction 1 as [|s now e Hr IH _].
  - apply (initial_fields c ctx).
  - destruct e as [msg|tp payload| |].
    1-3: match goal with
         | |- lastTemp (step _ (_, ?e)) = _ =>
             destruct (handle_quiet now e ltac:(discriminate) s) as (_&_&_&Ht&_);
             exact (eq_trans Ht IH)
         end.
    apply (tick_without_temperature now s IH).
Qed.

(* ================================================================== *)
(** * Further properties of the node *)

(** ** Invariants of the handlers *)

Lemma bind_unfold {A B : Type} (c : M A) (k : A -> M B) (s : Node) :
  (c ≫= k) s
  = match c s with
    | (Ok a, s') => k a s'
    | (Throw e, s') => (Throw e, s')
    end.
Proof. reflexivity. Qed.

Lemma preserves_of_relates {A : Type} (P : Node -> Prop) (R : Node -> Node -> Prop)
  (c : M A) :
  (forall s s', R s s' -> P s -> P s') -> relates R c -> preserves P c.
Proof. intros HR Hc s Hs. exact (HR _ _ (Hc s) Hs). Qed.

Section Invariant.

Variable P : Node -> Prop.

Hypothesis P_status : forall f sh t s, P s -> P (emit (Status f sh t) s).
Hypothesis P_send : forall tp pl s, P s -> P (emit (Send tp pl) s).
Hypothesis P_lastChange : forall v s, P s -> P (set_lastChange v s).
Hypothesis P_clearHeat : forall s, P s -> P (set_lastHeatTime None s).
Hypothesis P_clearCool : forall s, P s -> P (set_lastCoolTime None s).
Hypothesis P_noAction : forall s, P s -> P (set_lastAction (Some NoAction) s).
Hypothesis P_override : forall v s, P s -> P (set_override v s).
Hypothesis P_setpoint_set : forall now v, preserves P (setpoint_set now v).
Hypothesis P_updateAction : forall now, preserves P (updateAction now).
Hypothesis P_refresh : forall now s,
  P s -> P (exec (updateTemperature now (Some (parseFloat (toValue (lastTemp s))))) s).
Hypothesis P_stamp : forall now s,
  P s ->
  P (exec (if isHeating s then modify (set_lastHeatTime (Some now))
           else if isCooling s then modify (set_lastCoolTime (Some now))
           else mret tt) s).
Hypothesis P_sendStatusUpdate : forall now, preserves P (sendStatusUpdate now).

Lemma preserves_ret {A : Type} (a : A) : preserves P (mret a).
Proof using Type. intros s H. exact H. Qed.

Lemma preserves_gets {A : Type} (f : Node -> A) : preserves P (gets f).
Proof using Type. intros s H. exact H. Qed.

Lemma preserves_modify (f : Node -> Node) :
  (forall s, P s -> P (f s)) -> preserves P (modify f).
Proof using Type. intros H s. apply H. Qed.

Lemma preserves_bind {A B : Type} (c : M A) (k : A -> M B) :
  preserves P c -> (forall a, preserves P (k a)) -> preserves P (c ≫= k).
Proof using Type.
  intros Hc Hk s Hs. rewrite exec_bind. specialize (Hc s Hs). unfold exec in Hc.
  destruct (c s) as [[a|e] s']; simpl in Hc; [apply Hk|]; exact Hc.
Qed.

Ltac keep :=
  repeat first
    [ match goal with H : _ |- preserves _ _ => solve [apply H] end
    | apply preserves_ret | apply preserves_gets
    | apply preserves_modify; solve [auto]
    | apply preserves_bind; [|intros ?]
    | progress unfold when, whenOwn
    | match goal with
      | |- preserves _ (if ?b then _ else _) => destruct b
      | |- preserves _ (match ?x with _ => _ end) => destruct x
      end ].

Lemma updateStatus_preserves (now : Z) : preserves P (updateStatus now).
Proof using P_status.
  intros s H. unfold updateStatus, exec. simpl.
  destruct (lastChange s); apply P_status, H.
Qed.

Lemma updateNode_preserves (now : Z) : preserves P (updateNode now).
Proof using P_status P_send.
  pose proof (updateStatus_preserves now). unfold updateNode. keep.
Qed.

Lemma override_set_preserves (v : value) : preserves P (override_set v).
Proof using P_override. unfold override_set. keep. Qed.

Lemma handleModeChange_preserves (now : Z) (m : mode) :
  preserves P (handleModeChange now m).
Proof using P_status P_send P_lastChange P_clearHeat P_clearCool P_noAction
            P_override P_setpoint_set P_updateAction.
  pose proof (updateNode_preserves now). pose proof override_set_preserves.
  pose proof (P_setpoint_set now). pose proof (P_updateAction now).
  unfold handleModeChange. keep.
Qed.

Lemma mode_set_preserves (now : Z) (v : value) : preserves P (mode_set now v).
Proof using P_status P_send P_lastChange P_clearHeat P_clearCool P_noAction
            P_override P_setpoint_set P_updateAction.
  pose proof (handleModeChange_preserves now). unfold mode_set. keep.
Qed.

Lemma action_set_preserves (now : Z) (v : value) : preserves P (action_set now v).
Proof using P_status P_send P_lastChange P_clearHeat P_clearCool P_noAction
            P_override P_setpoint_set P_updateAction.
  pose proof (handleModeChange_preserves now). unfold action_set. keep.
Qed.

Lemma onInput_preserves (now : Z) (msg : InputMsg) : preserves P (onInput now msg).
Proof using P_status P_send P_lastChange P_clearHeat P_clearCool P_noAction
            P_override P_setpoint_set P_updateAction.
  pose proof (mode_set_preserves now). pose proof (action_set_preserves now).
  pose proof (P_setpoint_set now). pose proof override_set_preserves.
  unfold onInput. keep.
Qed.

Lemma onMqttIn_preserves (now : Z) (tp payload : string) :
  preserves P (onMqttIn now tp payload).
Proof using P_status P_send P_lastChange P_clearHeat P_clearCool P_noAction
            P_override P_setpoint_set P_updateAction.
  pose proof (mode_set_preserves now). pose proof (P_setpoint_set now).
  unfold onMqttIn. keep.
Qed.

Lemma tick_preserves (now : Z) : preserves P (tick now).
Proof using P_status P_send P_noAction P_updateAction P_refresh P_stamp
            P_sendStatusUpdate.
  intros s Hs. unfold tick. rewrite exec_gets_bind. unfold id.
  destruct (starting s || negb (isConnected now s)).
  { apply updateStatus_preserves, Hs. }
  rewrite exec_bind. pose proof (P_updateAction now s Hs) as HA. unfold exec in HA.
  destruct (updateAction now s) as [[[]|e] sA]; simpl in HA; [|exact HA].
  rewrite exec_gets_bind, exec_bind.
  pose proof (P_refresh now sA HA) as HB. unfold exec in HB.
  rewrite updateTemperature_unfold in HB |- *. cbn [snd] in HB.
  set (sB := if acceptsTemperature _ _ sA then _ else sA) in *. clearbody sB.
  rewrite exec_gets_bind, exec_bind. unfold id.
  pose proof (P_stamp now sB HB) as HC. unfold exec in HC.
  match type of HC with
  | P (snd ?r) => destruct r as [[[]|e] sC]; simpl in HC; [|exact HC]
  end.
  revert sC HC. apply preserves_bind; [apply preserves_gets|]. intros s2.
  pose proof (updateStatus_preserves now). pose proof (updateNode_preserves now).
  pose proof (P_sendStatusUpdate now).
  keep.
Qed.

Lemma handle_preserves (now : Z) (e : event) : preserves P (handle now e).
Proof using P_status P_send P_lastChange P_clearHeat P_clearCool P_noAction
            P_override P_setpoint_set P_updateAction P_refresh P_stamp
            P_sendStatusUpdate.
  destruct e; simpl.
  - apply onInput_preserves.
  - apply onMqttIn_preserves.
  - apply updateStatus_preserves.
  - apply tick_preserves.
Qed.

Lemma reachable_preserves (c : Config) (ctx : gmap string value) (ok : Z -> Prop)
  (s : Node) :
  P (initial c ctx) -> reachable c ctx ok s -> P s.
Proof using P_status P_send P_lastChange P_clearHeat P_clearCool P_noAction
            P_override P_setpoint_set P_updateAction P_refresh P_stamp
            P_sendStatusUpdate.
  intros H0. induction 1 as [|s now e Hr IH _]; [exact H0|].
  apply (handle_preserves now e s IH).
Qed.

End Invariant.

(** ** The stored setpoint stays within the range *)

Lemma store_set_ok (c : Config) (now : Z) (v : value) (st : SetpointStore) :
  store_ok c st -> store_ok c (store_set c now v st).
Proof.
  intros H. unfold store_set.
  destruct (hasSetpoint c && _); [|exact H].
  destruct (negb (Num.isNaN (parseFloat v))); simpl; [|exact H].
  destruct (parseFloat v >=? minTemp c)%num eqn:Hmin; simpl; [|exact H].
  destruct (parseFloat v <=? maxTemp c)%num eqn:Hmax; simpl; [|exact H].
  unfold store_ok, inRange. simpl. split; assumption.
Qed.

Lemma setpoint_set_store_ok (c : Config) (now : Z) (v : value) :
  preserves (node_store_ok c) (setpoint_set now v).
Proof.
  intros s [Hc Hs]. unfold setpoint_set, exec, mbind, M_bind, gets, modify. simpl.
  destruct (setpoint s) as [st|] eqn:E; simpl; [|split; [exact Hc | rewrite E; exact Hs]].
  split; [exact Hc|]. intros st' Hst'. injection Hst' as <-.
  rewrite Hc. apply store_set_ok, Hs. reflexivity.
Qed.

Lemma node_store_ok_stable (c : Config) (s s' : Node) :
  cfg s' = cfg s /\ setpoint s' = setpoint s ->
  node_store_ok c s -> node_store_ok c s'.
Proof. unfold node_store_ok. intros [-> ->]. tauto. Qed.

Lemma reachable_store_ok (c : Config) (ctx : gmap string value) (ok : Z -> Prop)
  (s : Node) :
  reachable c ctx ok s -> node_store_ok c s.
Proof.
  apply (reachable_preserves (node_store_ok c));
    try solve [intros; apply (node_store_ok_stable c s0); [split; reflexivity | assumption]].
  - apply setpoint_set_store_ok.
  - intros now. apply (preserves_of_relates _ _ _ (node_store_ok_stable c)).
    apply updateAction_relates; try (intros; split; reflexivity).
    intros a b d [-> ->] [-> ->]. split; reflexivity.
  - intros now s0. apply (preserves_of_relates _ _ _ (node_store_ok_stable c)).
    apply updateTemperature_relates; try (intros; split; reflexivity).
    intros a b d [-> ->] [-> ->]. split; reflexivity.
  - intros now s0. apply node_store_ok_stable.
    destruct (isHeating s0); [|destruct (isCooling s0)]; split; reflexivity.
  - intros now. apply (preserves_of_relates _ _ _ (node_store_ok_stable c)).
    apply sendStatusUpdate_relates; try (intros; split; reflexivity).
    intros a b d [-> ->] [-> ->]. split; reflexivity.
  - destruct (initial_fields c ctx) as (Hc&_&_&_&_&_&Hst). split; [exact Hc|].
    intros st. rewrite Hst. destruct (hasSetpoint c); [|discriminate].
    intros E. injection E as <-. exact I.
Qed.

(** Whatever requests arrive, the store holds either nothing or a number
    that passed the range test together with its instant, so
    [setpoint.get()] returns the captured default or a number within
    [minTemp, maxTemp]. *)
Theorem setpoint_get_default_or_in_range
  (c : Config) (ctx : gmap string value) (s : Node) (now : Z) (v : value) (s' : Node) :
  reachable c ctx (fun _ => True) s ->
  setpoint_get now s = (Ok v, s') ->
  v = capturedDefault c ctx \/ exists n, v = VNum n /\ inRange c n.
Proof.
  intros Hr. destruct (reachable_store_ok _ _ _ _ Hr) as [Hc Hok].
  destruct (reachable_frame _ _ _ _ Hr) as (_&_&_&_&Hrel).
  destruct (initial_fields c ctx) as (_&_&_&_&_&_&Hinit). rewrite Hinit in Hrel.
  unfold setpoint_get, mbind, M_bind, gets, undefinedRead, throw, mret, M_ret. simpl.
  destruct (setpoint s) as [st|] eqn:E; [|discriminate].
  intros H. injection H as <- _. specialize (Hok st eq_refl).
  destruct (hasSetpoint c); simpl in Hrel; [|contradiction].
  unfold store_get, store_ok in *.
  destruct (sp_current st) as [n|], (sp_lastChange st) as [t|];
    try contradiction; rewrite ?andb_false_r;
    [|left; symmetry; exact Hrel].
  destruct (_ && _); [|left; symmetry; exact Hrel].
  right. exists n. split; [reflexivity | exact Hok].
Qed.

Lemma setpoint_get_default_or_in_range_witness :
  exists n, VNum (Fin 21) = VNum n /\ inRange heatOnly n.
Proof.
  assert (Hr : reachable heatOnly ∅ (fun _ => True) heatOnlyAt21).
  { apply reach_step; [apply reach_init | exact I]. }
  assert (Hget : setpoint_get (t2023 + 5000) heatOnlyAt21
                 = (Ok (VNum (Fin 21)), heatOnlyAt21)).
  { vm_compute. reflexivity. }
  destruct (setpoint_get_default_or_in_range heatOnly ∅ heatOnlyAt21 (t2023 + 5000)
              (VNum (Fin 21)) heatOnlyAt21 Hr Hget) as [Hd | Hn].
  - vm_compute in Hd. discriminate.
  - exact Hn.
Defined.

(** ** What the handlers never do *)

Lemma idle_stable (s s' : Node) :
  lastTemp s' = lastTemp s /\ lastAction s' = lastAction s /\
  lastHeatTime s' = lastHeatTime s /\ lastCoolTime s' = lastCoolTime s ->
  idle s -> idle s'.
Proof. unfold idle. intros (-> & -> & -> & ->). tauto. Qed.

Lemma idle_not_running (s : Node) : idle s -> isHeating s = false /\ isCooling s = false.
Proof.
  unfold idle, isHeating, isCooling. intros (_ & [-> | ->] & _); split; reflexivity.
Qed.

(** The input and MQTT handlers and the timer never record a temperature
    (the [temperature] property of an input goes to [setpoint.set], line
    92, and the timer re-feeds [parseFloat(null)]).  So whatever events
    arrive, the action is never [heating] or [cooling] and the run stamps
    stay [null]: only a call of the method [updateTemperature] from
    outside changes that. *)
Theorem handlers_never_heat_or_cool
  (c : Config) (ctx : gmap string value) (s : Node) :
  reachable c ctx (fun _ => True) s ->
  lastTemp s = None /\
  isHeating s = false /\ isCooling s = false /\
  lastHeatTime s = None /\ lastCoolTime s = None /\
  action_get s = NoAction.
Proof.
  intros Hr.
  assert (Hi : idle s).
  { revert Hr. apply (reachable_preserves idle);
      try solve [intros; apply (idle_stable s0); [repeat split | assumption]].
    1-3: solve [intros s0 (? & ? & ? & ?); unfold idle; simpl; auto].
    - intros now v. apply (preserves_of_relates _ _ _ idle_stable).
      apply setpoint_set_relates; intros; repeat split.
    - intros now s0 Hs. pose proof Hs as (Ht & _).
      unfold updateAction, exec, mbind, M_bind, gets, modify. simpl. rewrite Ht.
      simpl. destruct Hs as (? & _ & ? & ?). repeat split; auto.
    - intros now s0 Hs. pose proof Hs as (Ht & _).
      unfold exec. rewrite updateTemperature_unfold, Ht, refresh_of_null_rejected.
      exact Hs.
    - intros now s0 Hs. destruct (idle_not_running s0 Hs) as [-> ->]. exact Hs.
    - intros now. apply (preserves_of_relates _ _ _ idle_stable).
      apply sendStatusUpdate_relates; try solve [intros; repeat split].
      intros a b d (-> & -> & -> & ->) (-> & -> & -> & ->). repeat split.
    - destruct (initial_fields c ctx) as (_&_&_&Ht&_).
      unfold idle. rewrite Ht. unfold initial, init, initSetpoint, exec, mbind,
        M_bind, gets, modify. simpl.
      destruct (hasSetpoint c); simpl; repeat split; left; reflexivity. }
  destruct (idle_not_running s Hi) as [Hh Hc]. destruct Hi as (Ht & _ & Hht & Hct).
  unfold action_get. rewrite Hh, Hc. repeat split; assumption.
Qed.

Lemma handlers_never_heat_or_cool_witness :
  lastTemp (run (initial heatOnly ∅)
              [(t2023, Input (mkInputMsg (Some (VStr "heat")) None (Some (VNum (Fin 10)))
                                None None (Some (VStr "heating"))));
               (t2023 + 5000, Tick)]) = None.
Proof.
  apply (handlers_never_heat_or_cool heatOnly ∅).
  simpl. apply reach_step; [apply reach_step; [apply reach_init|]|]; exact I.
Defined.

Lemma silent_stable (c : Config) (s s' : Node) :
  cfg s' = cfg s /\ lastSend s' = lastSend s /\ outbox s' = outbox s ->
  silent c s -> silent c s'.
Proof. unfold silent. intros (-> & -> & ->). tauto. Qed.

Lemma silent_emit (c : Config) (o : output) (s : Node) :
  isPublish o = false -> silent c s -> silent c (emit o s).
Proof.
  unfold silent. simpl. intros Ho (? & ? & Hb). repeat split; auto.
  rewrite existsb_app, Hb. simpl. rewrite Ho. reflexivity.
Qed.

Lemma sendStatusUpdate_cannot_publish (now : Z) (s : Node) :
  canPublish (cfg s) = false -> sendStatusUpdate now s = (Ok tt, s).
Proof.
  unfold canPublish, sendStatusUpdate, mbind, M_bind, gets. simpl.
  destruct (advertise (cfg s)), (broker (cfg s)), (topic (cfg s)) as [tp|];
    simpl; try reflexivity.
  destruct (String.eqb tp EmptyString); [reflexivity | discriminate].
Qed.

(** A node without a usable [advertise], broker and topic never hands
    anything to a broker and never stamps [lastSend], whatever events
    arrive and whatever the clock: its liveness is the comparison of the
    clock with [keepAliveMs] and nothing else. *)
Theorem never_publishes_without_broker
  (c : Config) (ctx : gmap string value) (s : Node) :
  canPublish c = false ->
  reachable c ctx (fun _ => True) s ->
  lastSend s = None /\ existsb isPublish (outbox s) = false /\
  forall now, isConnected now s = (ofZ now <? keepAliveMs c)%num.
Proof.
  intros Hc Hr.
  assert (Hs : silent c s).
  { revert Hr. apply (reachable_preserves (silent c));
      try solve [intros; apply silent_emit; [reflexivity | assumption]];
      try solve [intros; apply (silent_stable c s0); [repeat split | assumption]].
    - intros now v. apply (preserves_of_relates _ _ _ (silent_stable c)).
      apply setpoint_set_relates; intros; repeat split.
    - intros now. apply (preserves_of_relates _ _ _ (silent_stable c)).
      apply updateAction_relates; try solve [intros; repeat split].
      intros a b d (-> & -> & ->) (-> & -> & ->). repeat split.
    - intros now s0. apply (preserves_of_relates _ _ _ (silent_stable c)).
      apply updateTemperature_relates; try solve [intros; repeat split].
      intros a b d (-> & -> & ->) (-> & -> & ->). repeat split.
    - intros now s0. apply silent_stable.
      destruct (isHeating s0); [|destruct (isCooling s0)]; repeat split.
    - intros now s0 Hs. unfold exec.
      rewrite sendStatusUpdate_cannot_publish; [exact Hs|].
      destruct Hs as (-> & _). exact Hc.
    - destruct (initial_fields c ctx) as (Hcfg&_&_&_&_&Hsend&_).
      repeat split; [exact Hcfg | exact Hsend |].
      unfold initial, init, initSetpoint, exec, mbind, M_bind, gets, modify. simpl.
      destruct (hasSetpoint c); reflexivity. }
  destruct Hs as (Hcfg & Hsend & Hout). repeat split; [exact Hsend | exact Hout |].
  intros now. unfold isConnected. rewrite Hsend, Hcfg. simpl. rewrite Z.sub_0_r.
  reflexivity.
Qed.

Lemma never_publishes_without_broker_witness :
  lastSend (run (initial heatOnlyOffline ∅)
              [(t2023, Input (msgPayload (VStr "heat"))); (t2023 + 5000, Tick)]) = None.
Proof.
  apply (never_publishes_without_broker heatOnlyOffline ∅); [reflexivity|].
  simpl. apply reach_step; [apply reach_step; [apply reach_init|]|]; exact I.
Defined.

(** ** Reading back what was stored *)

Lemma inRange_not_null (c : Config) (v : value) :
  inRange c (parseFloat v) ->
  match v with VNull => false | _ => true end = true /\
  Num.isNaN (parseFloat v) = false.
Proof.
  unfold inRange, Num.geb. intros [Hmin _].
  pose proof (leb_not_NaN _ _ Hmin) as Hn. split; [|exact Hn].
  destruct v; try reflexivity. simpl in Hn. discriminate.
Qed.

Lemma store_set_accepts (c : Config) (now : Z) (v : value) (st : SetpointStore) :
  hasSetpoint c = true -> inRange c (parseFloat v) ->
  store_set c now v st
  = mkSetpointStore (Some (parseFloat v)) (Some now) (sp_defaultSetpoint st).
Proof.
  intros Hhas Hr. destruct (inRange_not_null c v Hr) as [Hnull Hnan].
  destruct Hr as [Hmin Hmax]. unfold store_set.
  rewrite Hhas, Hnan, Hmin, Hmax. simpl.
  destruct v; try reflexivity. discriminate.
Qed.

Lemma store_get_fresh (c : Config) (now now' : Z) (v : value) (st : SetpointStore) :
  hasSetpoint c = true -> inRange c (parseFloat v) ->
  (ofZ (now' - now) <=? tempValidMs c)%num = true ->
  store_get c now' (store_set c now v st) = VNum (parseFloat v).
Proof.
  intros Hhas Hr Hvalid. rewrite (store_set_accepts c now v st Hhas Hr).
  unfold store_get. cbn [sp_lastChange sp_current]. rewrite Hhas, Hvalid. reflexivity.
Qed.

Lemma setpoint_set_unfold (now : Z) (v : value) (s : Node) (st : SetpointStore) :
  setpoint s = Some st ->
  setpoint_set now v s = (Ok tt, set_setpoint (Some (store_set (cfg s) now v st)) s).
Proof.
  intros E. unfold setpoint_set, mbind, M_bind, gets. simpl. rewrite E. reflexivity.
Qed.

Lemma setpoint_get_unfold (now : Z) (s : Node) (st : SetpointStore) :
  setpoint s = Some st ->
  setpoint_get now s = (Ok (store_get (cfg s) now st), s).
Proof.
  intros E. unfold setpoint_get, mbind, M_bind, gets. simpl. rewrite E. reflexivity.
Qed.

(** A setpoint request with a value that parses into the range is read
    back by [setpoint.get()] as that number for as long as no more than
    [tempValidMs] have passed since the request. *)
Theorem setpoint_set_then_get (now now' : Z) (v : value) (s : Node) (st : SetpointStore) :
  setpoint s = Some st ->
  hasSetpoint (cfg s) = true ->
  inRange (cfg s) (parseFloat v) ->
  (ofZ (now' - now) <=? tempValidMs (cfg s))%num = true ->
  fst (setpoint_set now v s) = Ok tt /\
  fst (setpoint_get now' (exec (setpoint_set now v) s)) = Ok (VNum (parseFloat v)).
Proof.
  intros E Hhas Hr Hvalid. unfold exec.
  rewrite (setpoint_set_unfold now v s st E). cbn [fst snd].
  split; [reflexivity|].
  rewrite (setpoint_get_unfold now'
             (set_setpoint (Some (store_set (cfg s) now v st)) s)
             (store_set (cfg s) now v st) eq_refl).
  cbn [fst]. f_equal. apply (store_get_fresh (cfg s)); assumption.
Qed.

Lemma setpoint_set_then_get_witness :
  fst (setpoint_get (t2023 + minutes 60)
         (exec (setpoint_set t2023 (VStr "21.5")) (initial heatOnly ∅)))
  = Ok (VNum (Fin (43 # 2))).
Proof.
  assert (E : setpoint (initial heatOnly ∅)
              = Some (mkSetpointStore None None (VNum (Fin 18))))
    by (vm_compute; reflexivity).
  assert (Hhas : hasSetpoint (cfg (initial heatOnly ∅)) = true)
    by (vm_compute; reflexivity).
  assert (Hr : inRange (cfg (initial heatOnly ∅)) (parseFloat (VStr "21.5")))
    by (split; vm_compute; reflexivity).
  assert (Hvalid : (ofZ (t2023 + minutes 60 - t2023)
                    <=? tempValidMs (cfg (initial heatOnly ∅)))%num = true)
    by (vm_compute; reflexivity).
  rewrite (proj2 (setpoint_set_then_get t2023 (t2023 + minutes 60) (VStr "21.5")
                    (initial heatOnly ∅) _ E Hhas Hr Hvalid)).
  vm_compute. reflexivity.
Defined.

(** The context store gives back a stored setpoint and keeps the two
    keys apart; storing [undefined] brings the configured default back.
    The default the setpoint store captured at [init] is not affected. *)
Theorem stored_setpoints_roundtrip (v : value) (s : Node) :
  (v <> VUndefined ->
   getHeatSetpoint (setHeatSetpoint v s) = v /\
   getCoolSetpoint (setCoolSetpoint v s) = v) /\
  getCoolSetpoint (setHeatSetpoint v s) = getCoolSetpoint s /\
  getHeatSetpoint (setCoolSetpoint v s) = getHeatSetpoint s /\
  getHeatSetpoint (setHeatSetpoint VUndefined s) = VNum (defaultHeatSetpoint (cfg s)) /\
  getCoolSetpoint (setCoolSetpoint VUndefined s) = VNum (defaultCoolSetpoint (cfg s)) /\
  setpoint (setHeatSetpoint v s) = setpoint s /\
  setpoint (setCoolSetpoint v s) = setpoint s.
Proof.
  unfold getHeatSetpoint, getCoolSetpoint, setHeatSetpoint, setCoolSetpoint,
    getStoredValue, setStoredValue. simpl.
  rewrite !lookup_insert_eq.
  rewrite (lookup_insert_ne (context s) "heatSetpoint" "coolSetpoint") by discriminate.
  rewrite (lookup_insert_ne (context s) "coolSetpoint" "heatSetpoint") by discriminate.
  repeat split; destruct v; congruence.
Qed.

Lemma stored_setpoints_roundtrip_witness :
  getHeatSetpoint (setHeatSetpoint (VStr "19.5") (initial heatOnly ∅)) = VStr "19.5".
Proof.
  apply (stored_setpoints_roundtrip (VStr "19.5") (initial heatOnly ∅)). discriminate.
Defined.

(** ** The override latch *)

(** Only the boolean [true] sets the override: after [override.set(v)],
    [override.get()] is true exactly when [v] is [true] itself, not for the
    string ['true'] or the number 1.  Before any request it reads false. *)
Theorem override_latches_only_true (v : value) (s : Node) (c : Config)
  (ctx : gmap string value) :
  (override_get (exec (override_set v) s) = true <-> v = VBool true) /\
  override_get (initial c ctx) = false.
Proof.
  split.
  - unfold override_get, override_set, exec, modify. simpl.
    destruct v as [| |[|]| |]; simpl; split; congruence.
  - unfold initial, init, initSetpoint, exec, mbind, M_bind, gets, modify. simpl.
    destruct (hasSetpoint c); reflexivity.
Qed.

(** ** What is published for the temperature *)

(** [lastTemp || 'none'] treats 0 as missing: a recorded temperature of
    exactly 0 degrees is sent as ['none'], any other recorded number as
    itself. *)
Theorem zero_temperature_published_as_none (now : Z) (withId : bool) (q : Q) (s : Node) :
  lastTemp s = Some (Fin q) ->
  ((q == 0)%Q -> p_temperature (buildPayload now withId s) = VStr "none") /\
  (~ (q == 0)%Q -> p_temperature (buildPayload now withId s) = VNum (Fin q)).
Proof.
  intros H. unfold buildPayload. simpl. rewrite H. simpl.
  destruct (Qeq_bool q 0) eqn:E.
  - apply Qeq_bool_iff in E. split; [reflexivity | tauto].
  - apply Qeq_bool_neq in E. split; [tauto | reflexivity].
Qed.

Lemma zero_temperature_published_as_none_witness :
  lastTemp (exec (updateTemperature t2023 (Some (Fin 0))) (initial frostGuard ∅))
  = Some (Fin 0) /\
  p_temperature (buildPayload t2023 true
                   (exec (updateTemperature t2023 (Some (Fin 0))) (initial frostGuard ∅)))
  = VStr "none".
Proof.
  split; [reflexivity|].
  apply (zero_temperature_published_as_none t2023 true 0
           (exec (updateTemperature t2023 (Some (Fin 0))) (initial frostGuard ∅))
           eq_refl).
  reflexivity.
Defined.

(** ** Mode and action requests *)

Lemma mode_set_unfold (now : Z) (v : value) (s : Node) :
  mode_set now v s = handleModeChange now (selectedMode (cfg s) v) s.
Proof.
  unfold mode_set, selectedMode, mbind, M_bind, gets. simpl.
  repeat match goal with |- context [if ?b then _ else _] => destruct b end;
    reflexivity.
Qed.

(** Every mode change clears both run stamps, thrown or not. *)
Lemma handleModeChange_clears_stamps (now : Z) (m : mode) (s : Node) :
  lastHeatTime (exec (handleModeChange now m) s) = None /\
  lastCoolTime (exec (handleModeChange now m) s) = None.
Proof.
  unfold handleModeChange, exec, updateNode, updateStatus, updateAction,
    setpoint_set, setpoint_get, override_set, undefinedRead, throw,
    mbind, M_bind, mret, M_ret, gets, modify.
  destruct m; cbn; repeat (case_match; simplify_eq; cbn); split; reflexivity.
Qed.

(** [mode.set] never refuses: whatever the value, the node ends in the
    mode the value selects, with ['off'], ['heat'] and ['cool'] compared
    exactly (case and type included) and anything else selecting [auto];
    and both run stamps are cleared, even when the handler throws. *)
Theorem mode_set_selects (now : Z) (v : value) (s : Node) :
  mode_get (exec (mode_set now v) s) = selectedMode (cfg s) v /\
  lastHeatTime (exec (mode_set now v) s) = None /\
  lastCoolTime (exec (mode_set now v) s) = None /\
  (v <> VStr "off" -> v <> VStr "heat" -> v <> VStr "cool" ->
   mode_get (exec (mode_set now v) s) = Auto).
Proof.
  unfold exec. rewrite mode_set_unfold. fold (exec (handleModeChange now
    (selectedMode (cfg s) v)) s).
  pose proof (handleModeChange_lastChange now (selectedMode (cfg s) v) s) as Hm.
  destruct (handleModeChange_clears_stamps now (selectedMode (cfg s) v) s) as [Hh Hc].
  unfold mode_get. rewrite Hm. repeat split; try assumption.
  intros Hoff Hheat Hcool. unfold selectedMode, strictEqStr.
  destruct v as [| | | |str]; try reflexivity.
  destruct (String.eqb_spec str "off"); [congruence|].
  destruct (String.eqb_spec str "heat"); [congruence|].
  destruct (String.eqb_spec str "cool"); [congruence|]. reflexivity.
Qed.

Lemma mode_set_selects_witness :
  mode_get (exec (mode_set t2023 (VStr "HEAT")) (initial heatOnly ∅)) = Auto.
Proof.
  apply (mode_set_selects t2023 (VStr "HEAT") (initial heatOnly ∅)); discriminate.
Defined.

(** [action.set] turns ['heating'], ['cooling'] and ['none'] into the
    modes [heat], [cool] and [auto] (the first two only with the
    capability); any other value is dropped without a trace. *)
Theorem action_set_selects (now : Z) (v : value) (s : Node) :
  (v = VStr "heating" -> hasHeating (cfg s) = true ->
   mode_get (exec (action_set now v) s) = Heat) /\
  (v = VStr "cooling" -> hasCooling (cfg s) = true ->
   mode_get (exec (action_set now v) s) = Cool) /\
  (v = VStr "none" -> mode_get (exec (action_set now v) s) = Auto) /\
  (v <> VStr "heating" -> v <> VStr "cooling" -> v <> VStr "none" ->
   action_set now v s = (Ok tt, s)).
Proof.
  unfold mode_get.
  repeat split.
  - intros -> Hh. unfold exec, action_set, mbind at 1, M_bind at 1, gets. simpl.
    rewrite Hh. fold (exec (handleModeChange now Heat) s).
    rewrite handleModeChange_lastChange. reflexivity.
  - intros -> Hc. unfold exec, action_set, mbind at 1, M_bind at 1, gets. simpl.
    rewrite Hc. fold (exec (handleModeChange now Cool) s).
    rewrite handleModeChange_lastChange. reflexivity.
  - intros ->. unfold exec, action_set, mbind at 1, M_bind at 1, gets. simpl.
    fold (exec (handleModeChange now Auto) s).
    rewrite handleModeChange_lastChange. reflexivity.
  - intros H1 H2 H3. unfold action_set, strictEqStr, mbind, M_bind, gets. simpl.
    destruct v as [| | | |str]; try reflexivity.
    destruct (String.eqb_spec str "heating"); [congruence|].
    destruct (String.eqb_spec str "cooling"); [congruence|].
    destruct (String.eqb_spec str "none"); [congruence|]. reflexivity.
Qed.

Lemma action_set_selects_witness :
  mode_get (exec (action_set t2023 (VStr "none")) (initial heatOnly ∅)) = Auto /\
  action_set t2023 (VStr "idle") (initial heatOnly ∅) = (Ok tt, initial heatOnly ∅).
Proof.
  split.
  - apply (action_set_selects t2023 (VStr "none") (initial heatOnly ∅)). reflexivity.
  - apply (action_set_selects t2023 (VStr "idle") (initial heatOnly ∅)); discriminate.
Defined.

Lemma handleModeChange_cfg (now : Z) (m : mode) (s : Node) :
  cfg (exec (handleModeChange now m) s) = cfg s.
Proof.
  apply (handleModeChange_relates (fun a b => cfg b = cfg a));
    try (intros; reflexivity).
  intros a b c H1 H2. congruence.
Qed.

(** What a mode change does to the store: only [heat] and [cool] on a
    controller whose default mode is [auto] offer it a value. *)
Lemma handleModeChange_store (now : Z) (m : mode) (s : Node) (st : SetpointStore) :
  setpoint s = Some st ->
  setpoint (exec (handleModeChange now m) s)
  = Some (if mode_eqb (defaultMode (cfg s)) Auto then
            match m with
            | Heat => store_set (cfg s) now (getHeatSetpoint s) st
            | Cool => store_set (cfg s) now (getCoolSetpoint s) st
            | _ => st
            end
          else st).
Proof.
  intros E.
  unfold handleModeChange, exec, updateNode, updateStatus, updateAction,
    setpoint_set, setpoint_get, override_set, undefinedRead, throw,
    mbind, M_bind, mret, M_ret, gets, modify.
  destruct m; cbn; rewrite ?E; cbn; rewrite ?store_set_null;
    repeat (case_match; simplify_eq; cbn in * ); try reflexivity; assumption.
Qed.

(** On a heat-and-cool controller a change to mode [heat] (or [cool])
    loads the stored heat (cool) setpoint into the store: if it parses into
    the range, [setpoint.get()] returns it until [tempValidMs] have passed.
    On any other controller a mode change leaves the store as it was. *)
Theorem mode_change_loads_setpoint
  (now now' : Z) (m : mode) (s : Node) (st : SetpointStore) :
  setpoint s = Some st ->
  hasSetpoint (cfg s) = true ->
  let loaded := match m with Cool => getCoolSetpoint s | _ => getHeatSetpoint s end in
  (defaultMode (cfg s) = Auto -> m = Heat \/ m = Cool ->
   inRange (cfg s) (parseFloat loaded) ->
   (ofZ (now' - now) <=? tempValidMs (cfg s))%num = true ->
   fst (setpoint_get now' (exec (handleModeChange now m) s))
   = Ok (VNum (parseFloat loaded))) /\
  (defaultMode (cfg s) <> Auto ->
   setpoint (exec (handleModeChange now m) s) = Some st).
Proof.
  intros E Hhas loaded.
  pose proof (handleModeChange_store now m s st E) as Hst.
  pose proof (handleModeChange_cfg now m s) as Hc.
  split.
  - intros Hd Hm Hr Hvalid. rewrite Hd in Hst. simpl in Hst.
    rewrite (setpoint_get_unfold now' _ _ Hst), Hc. cbn [fst]. f_equal.
    destruct Hm as [-> | ->]; apply store_get_fresh; assumption.
  - intros Hd. rewrite Hst. destruct (defaultMode (cfg s)); try reflexivity.
    congruence.
Qed.

Lemma mode_change_loads_setpoint_witness :
  fst (setpoint_get (t2023 + minutes 30)
         (exec (handleModeChange t2023 Heat) (initial heatCool ∅)))
  = Ok (VNum (parseFloat (getHeatSetpoint (initial heatCool ∅)))).
Proof.
  assert (E : setpoint (initial heatCool ∅)
              = Some (mkSetpointStore None None (VNum (Fin 24)))).
  { vm_compute. reflexivity. }
  assert (Hhas : hasSetpoint (cfg (initial heatCool ∅)) = true).
  { vm_compute. reflexivity. }
  assert (Hd : defaultMode (cfg (initial heatCool ∅)) = Auto).
  { vm_compute. reflexivity. }
  assert (Hr : inRange (cfg (initial heatCool ∅))
                 (parseFloat (getHeatSetpoint (initial heatCool ∅)))).
  { split; vm_compute; reflexivity. }
  assert (Hv : (ofZ (t2023 + minutes 30 - t2023)
                <=? tempValidMs (cfg (initial heatCool ∅)))%num = true).
  { vm_compute. reflexivity. }
  exact (proj1 (mode_change_loads_setpoint t2023 (t2023 + minutes 30) Heat
                  (initial heatCool ∅) _ E Hhas)
           Hd (or_introl eq_refl) Hr Hv).
Defined.

(** ** Recomputing without a store *)

(** On a node without a setpoint store (a manual controller) that has a
    recorded temperature, [updateAction] throws at [node.setpoint.get()]
    and changes nothing, and so does every timer tick that gets past the
    connection test: nothing is refreshed, stamped or published. *)
Theorem recompute_without_store_throws (now : Z) (t : number) (s : Node) :
  lastTemp s = Some t ->
  setpoint s = None ->
  updateAction now s
  = (Throw (TypeError "Cannot read properties of undefined (reading 'get')"), s) /\
  (starting s = false -> isConnected now s = true ->
   tick now s
   = (Throw (TypeError "Cannot read properties of undefined (reading 'get')"), s)).
Proof.
  intros Ht Hs.
  assert (E : updateAction now s
              = (Throw (TypeError "Cannot read properties of undefined (reading 'get')"), s)).
  { unfold updateAction, setpoint_get, undefinedRead, throw, mbind, M_bind, gets.
    simpl. rewrite Ht. simpl. rewrite Hs. reflexivity. }
  split; [exact E|]. intros Hst Hc.
  unfold tick. rewrite bind_unfold. unfold gets at 1. unfold id.
  rewrite Hst, Hc. simpl. rewrite bind_unfold, E. reflexivity.
Qed.

Lemma recompute_without_store_throws_witness :
  updateAction t2023
    (exec (updateTemperature t2023 (Some (Fin 16))) (initial manual ∅))
  = (Throw (TypeError "Cannot read properties of undefined (reading 'get')"),
     exec (updateTemperature t2023 (Some (Fin 16))) (initial manual ∅)).
Proof.
  set (s := exec (updateTemperature t2023 (Some (Fin 16))) (initial manual ∅)).
  assert (Ht : lastTemp s = Some (Fin 16)) by (vm_compute; reflexivity).
  assert (Hs : setpoint s = None) by (vm_compute; reflexivity).
  exact (proj1 (recompute_without_store_throws t2023 (Fin 16) s Ht Hs)).
Defined.

Lemma updateAction_unfold (now : Z) (t : number) (s : Node) (st : SetpointStore) :
  lastTemp s = Some t -> setpoint s = Some st ->
  updateAction now s
  = (Ok tt, set_lastAction
              (Some (calculateAction s t (parseFloat (store_get (cfg s) now st)))) s).
Proof.
  intros Ht E. unfold updateAction. rewrite bind_unfold. unfold gets at 1.
  unfold id. rewrite Ht, bind_unfold, (setpoint_get_unfold now s st E). reflexivity.
Qed.

(** [setSetpoint] (a method no handler calls) stores an accepted value and
    recomputes the action against it at once. *)
Theorem setSetpoint_recomputes
  (now : Z) (v : value) (t : number) (s : Node) (st : SetpointStore) :
  setpoint s = Some st ->
  hasSetpoint (cfg s) = true ->
  inRange (cfg s) (parseFloat v) ->
  (ofZ 0 <=? tempValidMs (cfg s))%num = true ->
  lastTemp s = Some t ->
  fst (setSetpoint now v s) = Ok tt /\
  lastAction (exec (setSetpoint now v) s) = Some (calculateAction s t (parseFloat v)) /\
  setpoint (exec (setSetpoint now v) s)
  = Some (mkSetpointStore (Some (parseFloat v)) (Some now) (sp_defaultSetpoint st)).
Proof.
  intros E Hhas Hr Hvalid Ht.
  assert (Hget : store_get (cfg s) now (store_set (cfg s) now v st) = VNum (parseFloat v)).
  { apply store_get_fresh; try assumption. rewrite Z.sub_diag. exact Hvalid. }
  assert (Hrun : setSetpoint now v s
                 = (Ok tt, set_lastAction (Some (calculateAction s t (parseFloat v)))
                             (set_setpoint (Some (store_set (cfg s) now v st)) s))).
  { unfold setSetpoint. rewrite bind_unfold, (setpoint_set_unfold now v s st E).
    rewrite (updateAction_unfold now t
               (set_setpoint (Some (store_set (cfg s) now v st)) s)
               (store_set (cfg s) now v st) Ht eq_refl).
    cbn [cfg set_setpoint]. rewrite Hget. reflexivity. }
  unfold exec. rewrite Hrun. cbn [fst snd lastAction setpoint set_lastAction set_setpoint].
  rewrite (store_set_accepts _ now v st Hhas Hr). repeat split.
Qed.

Lemma setSetpoint_recomputes_witness :
  lastAction (exec (setSetpoint t2023 (VNum (Fin 20)))
                (exec (updateTemperature t2023 (Some (Fin 19))) (initial heatCool ∅)))
  = Some (calculateAction
            (exec (updateTemperature t2023 (Some (Fin 19))) (initial heatCool ∅))
            (Fin 19) (parseFloat (VNum (Fin 20)))).
Proof.
  set (s := exec (updateTemperature t2023 (Some (Fin 19))) (initial heatCool ∅)).
  assert (E : setpoint s = Some (mkSetpointStore None None (VNum (Fin 24)))).
  { vm_compute. reflexivity. }
  assert (Hhas : hasSetpoint (cfg s) = true) by (vm_compute; reflexivity).
  assert (Hr : inRange (cfg s) (parseFloat (VNum (Fin 20)))).
  { split; vm_compute; reflexivity. }
  assert (Hv : (ofZ 0 <=? tempValidMs (cfg s))%num = true) by (vm_compute; reflexivity).
  assert (Ht : lastTemp s = Some (Fin 19)) by (vm_compute; reflexivity).
  exact (proj1 (proj2 (setSetpoint_recomputes t2023 (VNum (Fin 20)) (Fin 19) s _
                         E Hhas Hr Hv Ht))).
Defined.

(** ** Keep-alive settings that switch the update loop off *)

(** With a keep-alive that is 0, negative or not a number, [isConnected]
    is false at every instant that is not before [lastSend], so every
    timer tick takes the early return and only refreshes the status:
    nothing is recomputed or published. *)
Theorem no_keepAlive_no_recompute (now : Z) (s : Node) :
  (Fin 0 <? keepAliveMs (cfg s))%num = false ->
  orEpoch (lastSend s) <= now ->
  isConnected now s = false /\ tick now s = updateStatus now s.
Proof.
  intros Hk Hnow.
  assert (Hc : isConnected now s = false).
  { unfold isConnected, ofZ. destruct (keepAliveMs (cfg s)) as [| |k|];
      simpl in *; try reflexivity; try discriminate.
    apply not_true_iff_false. rewrite Qltb_lt.
    apply not_true_iff_false in Hk. rewrite Qltb_lt in Hk.
    assert (0 <= inject_Z (now - orEpoch (lastSend s)))%Q.
    { change 0%Q with (inject_Z 0). rewrite <- Zle_Qle. lia. }
    lra. }
  split; [exact Hc|]. apply tick_disconnected. rewrite Hc. apply orb_true_r.
Qed.

Lemma no_keepAlive_no_recompute_witness :
  keepAliveMs heatOnlyNoKeepAlive = Fin 0 /\
  tick (t2023 + 1)
    (set_lastSend (Some t2023)
       (exec (updateTemperature t2023 (Some (Fin 16))) (initial heatOnlyNoKeepAlive ∅)))
  = updateStatus (t2023 + 1)
      (set_lastSend (Some t2023)
         (exec (updateTemperature t2023 (Some (Fin 16))) (initial heatOnlyNoKeepAlive ∅))).
Proof.
  split; [reflexivity|].
  apply (no_keepAlive_no_recompute (t2023 + 1)
           (set_lastSend (Some t2023)
              (exec (updateTemperature t2023 (Some (Fin 16)))
                 (initial heatOnlyNoKeepAlive ∅)))).
  - reflexivity.
  - vm_compute. discriminate.
Defined.

(** ** Climate types the node does not know *)

(** A climate type other than ['both'], ['heat'], ['cool'] and ['manual']
    gives a controller with a setpoint store and default mode [heat] but
    neither capability: every mode request other than ['off'] selects
    [auto], and action requests for heating or cooling are dropped. *)
Theorem unknown_climate_type (raw : RawConfig) :
  c_climateType raw <> "both" -> c_climateType raw <> "heat" ->
  c_climateType raw <> "cool" -> c_climateType raw <> "manual" ->
  let c := createConfig raw in
  hasHeating c = false /\ hasCooling c = false /\ hasSetpoint c = true /\
  defaultMode c = Heat /\
  (forall v, selectedMode c v = Off \/ selectedMode c v = Auto) /\
  (forall now ctx v, v = VStr "heating" \/ v = VStr "cooling" ->
     action_set now v (initial c ctx) = (Ok tt, initial c ctx)).
Proof.
  intros Hb Hh Hc Hm c.
  assert (Hcap : hasHeating c = false /\ hasCooling c = false /\
                 hasSetpoint c = true /\ defaultMode c = Heat).
  { unfold c, createConfig. simpl.
    destruct (String.eqb_spec (c_climateType raw) "both"); [congruence|].
    destruct (String.eqb_spec (c_climateType raw) "heat"); [congruence|].
    destruct (String.eqb_spec (c_climateType raw) "cool"); [congruence|].
    destruct (String.eqb_spec (c_climateType raw) "manual"); [congruence|].
    repeat split. }
  destruct Hcap as (H1 & H2 & H3 & H4). repeat split; try assumption.
  - intros v. unfold selectedMode. rewrite H1, H2, !andb_false_r.
    destruct (strictEqStr v "off"); [left | right]; reflexivity.
  - intros now ctx v Hv.
    destruct (initial_fields c ctx) as (Hcfg & _).
    unfold action_set, mbind, M_bind, gets. simpl. rewrite Hcfg, H1, H2.
    destruct Hv as [-> | ->]; reflexivity.
Qed.

Lemma unknown_climate_type_witness :
  hasHeating unknownType = false /\ hasCooling unknownType = false /\
  hasSetpoint unknownType = true /\ defaultMode unknownType = Heat.
Proof.
  pose proof (unknown_climate_type (rawCustom "fan" 15 5 true)
                ltac:(discriminate) ltac:(discriminate) ltac:(discriminate)
                ltac:(discriminate)) as (H1 & H2 & H3 & H4 & _).
  repeat split; assumption.
Defined.

(** ** A tick that recomputes *)

Lemma publish_relates (R : Node -> Node -> Prop) (now : Z) :
  (forall s, R s s) -> (forall a b c, R a b -> R b c -> R a c) ->
  (forall o s, R s (emit o s)) -> (forall v s, R s (set_lastSend v s)) ->
  relates R (updateNode now;; sendStatusUpdate now;; updateStatus now).
Proof.
  intros Hrefl Htrans Hemit Hsend.
  apply (relates_bind R Htrans).
  { exact (updateNode_relates R Hrefl Htrans Hemit now). }
  intros _. apply (relates_bind R Htrans).
  { exact (sendStatusUpdate_relates R Hrefl Htrans Hemit Hsend now). }
  intros _. exact (updateStatus_relates R Hemit now).
Qed.

Lemma publish_stamps (now : Z) (s : Node) :
  canPublish (cfg s) = true ->
  fst ((updateNode now;; sendStatusUpdate now;; updateStatus now) s) = Ok tt /\
  lastSend (exec (updateNode now;; sendStatusUpdate now;; updateStatus now) s)
  = Some now.
Proof.
  unfold canPublish, exec, updateNode, sendStatusUpdate, updateStatus,
    mbind, M_bind, mret, M_ret, gets, modify. cbn.
  destruct (advertise (cfg s)), (broker (cfg s)), (topic (cfg s)) as [tp|];
    cbn; try discriminate.
  destruct (String.eqb tp EmptyString); cbn; [discriminate|].
  intros _. destruct (lastChange s); cbn; split; reflexivity.
Qed.

Lemma sameButRun_refl (s : Node) : sameButRun s s.
Proof. unfold sameButRun. repeat split. Qed.

(** Lines 431-442 hand the node on with at most the action and the run
    stamps changed, and cannot throw. *)
Lemma stamp_cutoff_shape (now : Z) (s : Node) (k : M unit) :
  exists sD,
    ((if isHeating s then modify (set_lastHeatTime (Some now))
      else if isCooling s then modify (set_lastCoolTime (Some now))
      else mret tt);;
     s2 ← gets id;
     (if isHeating s2 && ranTooLong now (lastHeatTime s2) (cfg s2)
      then modify (set_lastAction (Some NoAction))
      else if isCooling s2 && ranTooLong now (lastCoolTime s2) (cfg s2)
      then modify (set_lastAction (Some NoAction))
      else mret tt);;
     k) s = k sD /\
    sameButRun s sD.
Proof.
  unfold mbind, M_bind, mret, M_ret, gets, modify, id.
  destruct (isHeating s) eqn:Hh; [|destruct (isCooling s) eqn:Hc]; cbn;
    repeat match goal with
           | |- context [if ?b then _ else _] => destruct b; cbn
           end;
    eexists; (split; [reflexivity | unfold sameButRun; repeat split]).
Qed.

Lemma gets_bind {A B : Type} (f : Node -> A) (k : A -> M B) (s : Node) :
  (gets f ≫= k) s = k (f s) s.
Proof. reflexivity. Qed.

Lemma tick_shape (now : Z) (s sA : Node) :
  starting s || negb (isConnected now s) = false ->
  updateAction now s = (Ok tt, sA) ->
  exists sD,
    tick now s = (updateNode now;; sendStatusUpdate now;; updateStatus now) sD /\
    sameButRun
      (exec (updateTemperature now (Some (parseFloat (toValue (lastTemp sA))))) sA) sD.
Proof.
  intros Hguard HA. unfold tick. rewrite gets_bind. unfold id at 1 2.
  rewrite Hguard, bind_unfold, HA, gets_bind, bind_unfold. unfold exec.
  rewrite updateTemperature_unfold. cbn [snd].
  set (sB := if acceptsTemperature _ _ sA then _ else sA). clearbody sB.
  rewrite gets_bind. unfold id at 1 2 3.
  apply stamp_cutoff_shape.
Qed.

(** [updateAction] can only throw with a recorded temperature and no
    store; otherwise it changes the action and nothing else. *)
Lemma updateAction_ok (now : Z) (s : Node) :
  lastTemp s = None \/ setpoint s <> None ->
  exists a, updateAction now s = (Ok tt, set_lastAction a s).
Proof.
  intros H. destruct (lastTemp s) as [t|] eqn:Ht.
  - destruct (setpoint s) as [st|] eqn:E; [|destruct H; congruence].
    eexists. apply (updateAction_unfold now t s st Ht E).
  - exists (Some NoAction).
    unfold updateAction, mbind, M_bind, gets. simpl. rewrite Ht. reflexivity.
Qed.

(** A tick that gets past the connection test on a node that can publish
    completes unless the node has a recorded temperature and no store, and
    stamps [lastSend] with its own instant: from then on the node is
    connected for exactly [keepAliveMs], so ticks that come more often than
    that keep it connected. *)
Theorem tick_publishes_and_stays_connected (now : Z) (s : Node) :
  starting s = false ->
  isConnected now s = true ->
  canPublish (cfg s) = true ->
  lastTemp s = None \/ setpoint s <> None ->
  fst (tick now s) = Ok tt /\
  lastSend (exec (tick now) s) = Some now /\
  forall now', isConnected now' (exec (tick now) s)
               = (ofZ (now' - now) <? keepAliveMs (cfg s))%num.
Proof.
  intros Hst Hc Hpub Hok.
  destruct (updateAction_ok now s Hok) as [a HA].
  assert (Hguard : starting s || negb (isConnected now s) = false).
  { rewrite Hst, Hc. reflexivity. }
  destruct (tick_shape now s _ Hguard HA) as (sD & Htick & HD).
  assert (HcD : cfg sD = cfg s).
  { destruct HD as (-> & _). unfold exec. rewrite updateTemperature_unfold.
    destruct (acceptsTemperature _ _ _); reflexivity. }
  assert (Hpub' : canPublish (cfg sD) = true) by (rewrite HcD; exact Hpub).
  destruct (publish_stamps now sD Hpub') as [Hfst Hsend].
  pose proof (publish_relates (fun a b => cfg b = cfg a) now
                (fun _ => eq_refl) (fun a b c H1 H2 => eq_trans H2 H1)
                (fun _ _ => eq_refl) (fun _ _ => eq_refl) sD) as Hcfg.
  simpl in Hcfg.
  unfold exec in *. rewrite Htick.
  split; [exact Hfst|]. split; [exact Hsend|].
  intros now'. unfold isConnected. rewrite Hsend, Hcfg, HcD. reflexivity.
Qed.

Lemma tick_publishes_and_stays_connected_witness :
  lastSend (exec (tick (t2023 + 5000)) heatOnlyCold) = Some (t2023 + 5000).
Proof.
  assert (Hst : starting heatOnlyCold = false) by (vm_compute; reflexivity).
  assert (Hc : isConnected (t2023 + 5000) heatOnlyCold = true) by (vm_compute; reflexivity).
  assert (Hp : canPublish (cfg heatOnlyCold) = true) by (vm_compute; reflexivity).
  assert (Hok : lastTemp heatOnlyCold = None \/ setpoint heatOnlyCold <> None).
  { right. vm_compute. discriminate. }
  exact (proj1 (proj2 (tick_publishes_and_stays_connected (t2023 + 5000) heatOnlyCold
                         Hst Hc Hp Hok))).
Defined.

Lemma abs_self_within (q : Q) (tol : number) :
  (tol >=? Fin 0)%num = true -> (Num.abs (Fin q - Fin q) <=? tol)%num = true.
Proof.
  unfold Num.geb, Num.sub. cbn [Num.add Num.opp].
  rewrite (round64_zero (q + - q)) by ring.
  destruct tol as [| |k|]; cbn [Num.leb Num.abs]; try congruence.
  rewrite !Qle_bool_iff. intros Hk. apply Qabs_Qle_condition. split; lra.
Qed.

(** Each tick that recomputes feeds the recorded temperature back to
    [updateTemperature] (line 429).  With a tolerance that is not
    negative the value is accepted again, so the tick moves
    [lastTempTime] to its own instant: the wait that lets a large jump
    through is counted from the last tick, not from the last reading. *)
Theorem tick_restamps_temperature
  (now : Z) (q : Q) (s : Node) (st : SetpointStore) :
  starting s = false ->
  isConnected now s = true ->
  setpoint s = Some st ->
  lastTemp s = Some (Fin q) ->
  inRange (cfg s) (Fin q) ->
  (tolerance (cfg s) >=? Fin 0)%num = true ->
  lastTemp (exec (tick now) s) = Some (Fin q) /\
  lastTempTime (exec (tick now) s) = Some now.
Proof.
  intros Hst Hc E Ht [Hmin Hmax] Htol.
  pose proof (updateAction_unfold now (Fin q) s st Ht E) as HA.
  assert (Hguard : starting s || negb (isConnected now s) = false).
  { rewrite Hst, Hc. reflexivity. }
  destruct (tick_shape now s _ Hguard HA) as (sD & Htick & HD).
  cbn [lastTemp set_lastAction] in HD. rewrite Ht in HD.
  unfold exec in HD. rewrite updateTemperature_unfold in HD.
  assert (Hacc : acceptsTemperature now (Some (parseFloat (toValue (Some (Fin q)))))
                   (set_lastAction
                      (Some (calculateAction s (Fin q)
                               (parseFloat (store_get (cfg s) now st)))) s) = true).
  { unfold acceptsTemperature. cbn [parseFloat toValue cfg lastTemp set_lastAction].
    rewrite Hmin, Hmax, Ht, (abs_self_within q _ Htol). reflexivity. }
  rewrite Hacc in HD. cbn [snd] in HD.
  destruct HD as (_&_&_&_&HDt&HDtt&_).
  cbn [lastTemp lastTempTime set_lastTemp parseFloat toValue] in HDt, HDtt.
  pose proof (publish_relates
                (fun a b => lastTemp b = lastTemp a /\ lastTempTime b = lastTempTime a)
                now (fun _ => conj eq_refl eq_refl)
                (fun a b c H1 H2 =>
                   conj (eq_trans (proj1 H2) (proj1 H1)) (eq_trans (proj2 H2) (proj2 H1)))
                (fun _ _ => conj eq_refl eq_refl) (fun _ _ => conj eq_refl eq_refl) sD)
    as [Hk1 Hk2].
  unfold exec in *. rewrite Htick, Hk1, Hk2. split; assumption.
Qed.

Lemma tick_restamps_temperature_witness :
  lastTempTime heatOnlyCold = Some t2023 /\
  lastTempTime (exec (tick (t2023 + 5000)) heatOnlyCold) = Some (t2023 + 5000).
Proof.
  split; [vm_compute; reflexivity|].
  assert (Hst : starting heatOnlyCold = false) by (vm_compute; reflexivity).
  assert (Hc : isConnected (t2023 + 5000) heatOnlyCold = true) by (vm_compute; reflexivity).
  assert (E : setpoint heatOnlyCold = Some (mkSetpointStore None None (VNum (Fin 18)))).
  { vm_compute. reflexivity. }
  assert (Ht : lastTemp heatOnlyCold = Some (Fin 16)) by (vm_compute; reflexivity).
  assert (Hr : inRange (cfg heatOnlyCold) (Fin 16)) by (split; vm_compute; reflexivity).
  assert (Htol : (tolerance (cfg heatOnlyCold) >=? Fin 0)%num = true).
  { vm_compute. reflexivity. }
  exact (proj2 (tick_restamps_temperature (t2023 + 5000) 16 heatOnlyCold _
                  Hst Hc E Ht Hr Htol)).
Defined.

(** ** Handlers that cannot throw *)

Lemma returns_ret {A : Type} (a : A) : returnsWithStore (mret a).
Proof. intros s H. split; [exists a; reflexivity | exact H]. Qed.

Lemma returns_gets {A : Type} (f : Node -> A) : returnsWithStore (gets f).
Proof. intros s H. split; [exists (f s); reflexivity | exact H]. Qed.

Lemma returns_modify (f : Node -> Node) :
  (forall s, setpoint (f s) = setpoint s) -> returnsWithStore (modify f).
Proof.
  intros Hf s H. split; [exists tt; reflexivity|].
  unfold exec, modify. simpl. rewrite Hf. exact H.
Qed.

Lemma returns_bind {A B : Type} (c : M A) (k : A -> M B) :
  returnsWithStore c -> (forall a, returnsWithStore (k a)) ->
  returnsWithStore (c ≫= k).
Proof.
  intros Hc Hk s H. destruct (Hc s H) as [[a Ha] Hs]. unfold exec in *.
  rewrite bind_unfold. destruct (c s) as [[a'|e] s']; simpl in Ha; [|discriminate].
  apply Hk. exact Hs.
Qed.

Lemma returns_updateStatus (now : Z) : returnsWithStore (updateStatus now).
Proof. intros s H. split; [exists tt; reflexivity | exact H]. Qed.

Lemma returns_setpoint_set (now : Z) (v : value) : returnsWithStore (setpoint_set now v).
Proof.
  intros s H. destruct (setpoint s) as [st|] eqn:E; [|congruence].
  unfold exec. rewrite (setpoint_set_unfold now v s st E).
  split; [exists tt; reflexivity | discriminate].
Qed.

Lemma returns_setpoint_get (now : Z) : returnsWithStore (setpoint_get now).
Proof.
  intros s H. destruct (setpoint s) as [st|] eqn:E; [|congruence].
  unfold exec. rewrite (setpoint_get_unfold now s st E).
  split; [eexists; reflexivity | simpl; congruence].
Qed.

Ltac returns :=
  repeat first
    [ match goal with H : _ |- returnsWithStore _ => solve [apply H] end
    | apply returns_ret | apply returns_gets
    | apply returns_updateStatus | apply returns_setpoint_set
    | apply returns_setpoint_get
    | apply returns_modify; intros; reflexivity
    | apply returns_bind; [|intros ?]
    | progress unfold when, whenOwn
    | match goal with
      | |- returnsWithStore (if ?b then _ else _) => destruct b
      | |- returnsWithStore (match ?x with _ => _ end) => destruct x
      end ].

Lemma returns_updateNode (now : Z) : returnsWithStore (updateNode now).
Proof. unfold updateNode. returns. Qed.

Lemma returns_updateAction (now : Z) : returnsWithStore (updateAction now).
Proof. unfold updateAction. returns. Qed.

Lemma returns_handleModeChange (now : Z) (m : mode) :
  returnsWithStore (handleModeChange now m).
Proof.
  pose proof (returns_updateNode now). pose proof (returns_updateAction now).
  unfold handleModeChange, override_set. returns.
Qed.

Lemma returns_onInput (now : Z) (msg : InputMsg) : returnsWithStore (onInput now msg).
Proof.
  pose proof (returns_handleModeChange now).
  unfold onInput, mode_set, action_set, override_set. returns.
Qed.

Lemma returns_onMqttIn (now : Z) (tp payload : string) :
  returnsWithStore (onMqttIn now tp payload).
Proof.
  pose proof (returns_handleModeChange now).
  unfold onMqttIn, mode_set. returns.
Qed.

Lemma returns_tick (now : Z) : returnsWithStore (tick now).
Proof.
  pose proof (returns_updateNode now). pose proof (returns_updateAction now).
  unfold tick, updateTemperature, sendStatusUpdate. returns.
Qed.

(** A controller that has a setpoint store (every type but manual) does
    not throw on messages made of primitive values.  For every input
    message whose properties are each absent, [undefined], [null], a
    boolean, a number or a string, every MQTT message with a string
    payload and every timer tick, at whatever instant and with such
    values in the context store, the handler returns normally and the
    store is still there for the next event.  A property that is a Symbol,
    or an object that does not convert to a string, is not a [value]:
    JavaScript's [parseFloat] throws on it, and the statement does not
    cover it. *)
Theorem handlers_return_with_store (now : Z) (e : event) (s : Node) :
  setpoint s <> None ->
  fst (handle now e s) = Ok tt /\ setpoint (step s (now, e)) <> None.
Proof.
  intros H.
  assert (Hr : returnsWithStore (handle now e)).
  { destruct e; simpl.
    - apply returns_onInput.
    - apply returns_onMqttIn.
    - apply returns_updateStatus.
    - apply returns_tick. }
  destruct (Hr s H) as [[[] Ha] Hs]. split; assumption.
Qed.

Lemma handlers_return_with_store_witness :
  fst (handle t2023 (Input (msgPayload (VStr "off"))) heatOnlyAt21) = Ok tt.
Proof.
  apply (handlers_return_with_store t2023 (Input (msgPayload (VStr "off"))) heatOnlyAt21).
  vm_compute. discriminate.
Defined.

(** ** What a mode change sends *)

(** On a controller with a store, a mode change hands exactly two things
    to the host, in this order: a status whose text is the new mode, and
    one update message on the node's topic that carries the new mode and
    the recomputed action.  Nothing is published to the broker and
    [lastSend] is not touched. *)
Theorem mode_change_emits_update (now : Z) (m : mode) (s : Node) (st : SetpointStore) :
  setpoint s = Some st ->
  exists fill shape payload,
    outbox (exec (handleModeChange now m) s)
    = (outbox s ++ [Status fill shape (modeName m); Send (topic (cfg s)) payload])%list /\
    p_mode payload = modeName m /\
    Some (p_action payload)
    = option_map actionName (lastAction (exec (handleModeChange now m) s)) /\
    lastSend (exec (handleModeChange now m) s) = lastSend s.
Proof.
  intros E.
  unfold handleModeChange, exec, updateNode, updateStatus, updateAction,
    setpoint_set, setpoint_get, override_set, undefinedRead, throw,
    mbind, M_bind, mret, M_ret, gets, modify.
  destruct m; cbn; rewrite ?E; cbn;
    repeat (case_match; simplify_eq; cbn in * );
    rewrite <- ?app_assoc; cbn;
    do 3 eexists; (split; [reflexivity | repeat split]).
Qed.

Lemma mode_change_emits_update_witness :
  exists fill shape payload,
    outbox (exec (handleModeChange t2023 Cool) (initial heatCool ∅))
    = (outbox (initial heatCool ∅)
       ++ [Status fill shape "cool"; Send (topic (cfg (initial heatCool ∅))) payload])%list.
Proof.
  assert (E : setpoint (initial heatCool ∅)
              = Some (mkSetpointStore None None (VNum (Fin 24)))).
  { vm_compute. reflexivity. }
  destruct (mode_change_emits_update t2023 Cool (initial heatCool ∅) _ E)
    as (fill & shape & payload & H & _).
  exists fill, shape, payload. exact H.
Defined.

(** ** MQTT topics *)

Lemma endsWith_get (s suffix : string) (i : nat) :
  endsWith s suffix = true -> (i < String.length suffix)%nat ->
  String.get (i + (String.length s - String.length suffix)) s = String.get i suffix.
Proof.
  unfold endsWith. intros H Hi. apply andb_true_iff in H as [_ H].
  apply String.eqb_eq in H. rewrite <- H at 2.
  symmetry. apply substring_correct1. exact Hi.
Qed.

(** No topic ends both in [/mode/set] and in [/temperature/set]. *)
Lemma mode_topic_not_temperature_topic (tp : string) :
  endsWith tp "/mode/set" = true -> endsWith tp "/temperature/set" = false.
Proof.
  intros Hm. destruct (endsWith tp "/temperature/set") eqn:Ht; [|reflexivity].
  pose proof (endsWith_get tp "/mode/set" 0 Hm ltac:(simpl; lia)) as H0.
  pose proof (endsWith_get tp "/temperature/set" 7 Ht ltac:(simpl; lia)) as H7.
  assert (Hlen : (16 <= String.length tp)%nat).
  { unfold endsWith in Ht. apply andb_true_iff in Ht as [Hl _].
    apply Nat.leb_le in Hl. exact Hl. }
  change (String.length "/mode/set") with 9%nat in H0.
  change (String.length "/temperature/set") with 16%nat in H7.
  replace (7 + (String.length tp - 16))%nat with (0 + (String.length tp - 9))%nat in H7
    by lia.
  rewrite H0 in H7. vm_compute in H7. discriminate.
Qed.

(** An MQTT message is a mode request when its topic ends in
    [/mode/set], a setpoint request when it ends in [/temperature/set],
    never both, and is ignored otherwise; the payload always arrives as a
    string. *)
Theorem mqtt_routing (now : Z) (tp payload : string) (s : Node) :
  (endsWith tp "/mode/set" = true ->
   onMqttIn now tp payload s = mode_set now (VStr payload) s) /\
  (endsWith tp "/temperature/set" = true ->
   onMqttIn now tp payload s = setpoint_set now (VStr payload) s) /\
  (endsWith tp "/mode/set" = false -> endsWith tp "/temperature/set" = false ->
   onMqttIn now tp payload s = (Ok tt, s)).
Proof.
  unfold onMqttIn, when. repeat split.
  - intros Hm. rewrite Hm, (mode_topic_not_temperature_topic tp Hm), bind_unfold.
    destruct (mode_set now (VStr payload) s) as [[[]|e] s']; reflexivity.
  - intros Ht. rewrite Ht.
    destruct (endsWith tp "/mode/set") eqn:Hm.
    + rewrite (mode_topic_not_temperature_topic tp Hm) in Ht. discriminate.
    + reflexivity.
  - intros -> ->. reflexivity.
Qed.

Lemma mqtt_routing_witness :
  onMqttIn t2023 "home/lounge-climate/temperature/set" "21" (initial heatOnly ∅)
  = setpoint_set t2023 (VStr "21") (initial heatOnly ∅).
Proof.
  apply (mqtt_routing t2023 "home/lounge-climate/temperature/set" "21"
           (initial heatOnly ∅)).
  reflexivity.
Defined.

(** ** The order of the properties of an input *)

Lemma mode_set_cfg (now : Z) (v : value) (s : Node) :
  cfg (exec (mode_set now v) s) = cfg s.
Proof.
  unfold exec. rewrite mode_set_unfold. apply handleModeChange_cfg.
Qed.

(** An input message that carries both [payload] and [mode] (and no
    [action]) changes the mode twice; on a controller with a store the
    [mode] property, handled second, decides the mode the node ends in,
    whatever [temperature], [setpoint] and [override] come with it. *)
Theorem input_mode_overrides_payload
  (now : Z) (a b : value) (msg : InputMsg) (s : Node) :
  setpoint s <> None ->
  m_payload msg = Some a -> m_mode msg = Some b -> m_action msg = None ->
  mode_get (exec (onInput now msg) s) = selectedMode (cfg s) b.
Proof.
  intros Hs Hp Hm Ha. unfold onInput. rewrite Hp, Hm, Ha. cbn [whenOwn].
  rewrite exec_bind.
  assert (R1 : returnsWithStore (mode_set now a)).
  { intros x Hx. unfold exec. rewrite mode_set_unfold.
    apply returns_handleModeChange, Hx. }
  destruct (R1 s Hs) as [[[] H1] Hs1].
  pose proof (mode_set_cfg now a s) as Hc1. unfold exec in Hs1, Hc1.
  destruct (mode_set now a s) as [[[]|e] s1]; simpl in H1, Hs1, Hc1; [|discriminate].
  rewrite exec_bind.
  pose proof (handleModeChange_lastChange now (selectedMode (cfg s1) b) s1) as H2.
  unfold exec in H2. rewrite <- mode_set_unfold in H2.
  destruct (mode_set now b s1) as [[[]|e] s2]; simpl in H2.
  - set (R := fun x y : Node => lastChange y = lastChange x).
    assert (Hrefl : forall x, R x x) by reflexivity.
    assert (Htrans : forall x y z, R x y -> R y z -> R x z).
    { unfold R. congruence. }
    assert (Hk : forall x, lastChange (exec
               (whenOwn (m_temperature msg) (setpoint_set now);;
                whenOwn (m_setpoint msg) (setpoint_set now);;
                whenOwn (m_override msg) override_set;; mret tt) x) = lastChange x).
    { apply (relates_bind R Htrans).
      { destruct (m_temperature msg); simpl;
          [apply (setpoint_set_relates R Hrefl); reflexivity | apply (relates_ret R Hrefl)]. }
      intros _. apply (relates_bind R Htrans).
      { destruct (m_setpoint msg); simpl;
          [apply (setpoint_set_relates R Hrefl); reflexivity | apply (relates_ret R Hrefl)]. }
      intros _. apply (relates_bind R Htrans).
      { destruct (m_override msg); simpl;
          [apply (override_set_relates R); reflexivity | apply (relates_ret R Hrefl)]. }
      intros _. apply (relates_ret R Hrefl). }
    unfold mode_get. rewrite Hk, H2, Hc1. reflexivity.
  - unfold mode_get. rewrite H2, Hc1. reflexivity.
Qed.

Lemma input_mode_overrides_payload_witness :
  mode_get (exec (onInput t2023
                    (mkInputMsg (Some (VStr "off")) (Some (VStr "heat")) None
                       (Some (VNum (Fin 20))) None None))
              (initial heatOnly ∅))
  = selectedMode (cfg (initial heatOnly ∅)) (VStr "heat").
Proof.
  apply (input_mode_overrides_payload t2023 (VStr "off") (VStr "heat")); try reflexivity.
  vm_compute. discriminate.
Defined.
